(** * url-shortener: the SQLite storage of aliases (package sqlite)

    The package keeps one table, [url(id, alias, url)], behind four
    functions: [New], [SaveURL], [GetURL] and [DeleteURL].  Each of them is
    a short sequence of calls into database/sql with the go-sqlite3 driver.
    The development has two layers:

    - the engine: what the SQL statements written in the package do to the
      table, following the documented behaviour of SQLite for the schema
      the package declares, and what the driver does with a statement text;
    - the package: the four Go functions, branch by branch, over that
      engine, with state passed explicitly (a [Storage] goes in, the
      [Storage] after the call comes out).

    A database file is one this package made: table url, when it exists,
    has the columns and constraints of the CREATE TABLE in [New].  Calls
    run one at a time. *)

From Stdlib Require Import ZArith List String Bool Lia.
Import ListNotations.

Local Open Scope string_scope.
Local Open Scope list_scope.
Local Open Scope Z_scope.

(** ** Errors *)

(** Modelled from the spec: package storage (internal/storage) is not among
    the sources.  It declares the two sentinel errors the package returns,
    storage.ErrURLNotFound (the spec's ErrNotFound) and storage.ErrURLExists
    (the spec's ErrAliasExists): two distinct values. *)
Module storage.
Inductive sentinel : Set := ErrURLNotFound | ErrURLExists.

Definition sentinel_eqb (a b : sentinel) : bool :=
  match a, b with
  | ErrURLNotFound, ErrURLNotFound => true
  | ErrURLExists, ErrURLExists => true
  | _, _ => false
  end.
End storage.

(** Result codes of the engine, as go-sqlite3 names them.  An extended code
    is the primary code with a sub-code in the next byte. *)
Module sqlite3.
Definition ErrError : Z := 1.
Definition ErrBusy : Z := 5.
Definition ErrFull : Z := 13.
Definition ErrCantOpen : Z := 14.
Definition ErrConstraint : Z := 19.
Definition ErrConstraintNotNull : Z := Z.lor ErrConstraint (Z.shiftl 5 8).
Definition ErrConstraintUnique : Z := Z.lor ErrConstraint (Z.shiftl 8 8).
End sqlite3.

(** A Go [error] value, as far as the package can meet one. *)
Inductive error : Type :=
| storage_error (s : storage.sentinel)
| sql_ErrNoRows
    (* database/sql's sentinel for a query without rows *)
| sqlite3_Error (Code ExtendedCode : Z)
    (* the driver's error value *)
| errorString (text : string)
    (* an error made by database/sql itself *)
| fmt_Errorf (format op : string) (err : error).
    (* fmt.Errorf(format, op, err): format has one %s, filled with op, and
       one %w, which makes err the wrapped error *)

(** errors.Unwrap. *)
Definition Unwrap (e : error) : option error :=
  match e with
  | fmt_Errorf _ _ err => Some err
  | _ => None
  end.

(** [==] on error values that are not pointers to a wrapper; two wrappers
    made by two calls of fmt.Errorf are never equal. *)
Definition error_eqb (a b : error) : bool :=
  match a, b with
  | storage_error s, storage_error t => storage.sentinel_eqb s t
  | sql_ErrNoRows, sql_ErrNoRows => true
  | sqlite3_Error c x, sqlite3_Error c' x' => (c =? c') && (x =? x')
  | errorString s, errorString t => String.eqb s t
  | _, _ => false
  end.

(** errors.Is: the chain of [err] holds [target]. *)
Fixpoint errors_Is (err target : error) : bool :=
  error_eqb err target
  || match err with
     | fmt_Errorf _ _ inner => errors_Is inner target
     | _ => false
     end.

(** The operation name an error carries: the %s argument of the fmt.Errorf
    that made it, when its format puts that argument first. *)
Definition carried_op (e : error) : option string :=
  match e with
  | fmt_Errorf format op _ => if prefix "%s: " format then Some op else None
  | _ => None
  end.

(** A call of the driver either gives a value or an error. *)
Inductive result (A : Type) : Type :=
| Ok (a : A)
| Err (e : error).
Arguments Ok {A} a.
Arguments Err {A} e.

(** ** The database *)

(** A row of table url, columns in the order of the CREATE TABLE. *)
Record row : Set := mkRow { row_id : Z; row_alias : string; row_url : string }.

(** A database file: table url when it exists, its rows in the order they
    were inserted, and the names of the indexes in the catalog. *)
Record database : Set := mkDatabase {
  url_table : option (list row);
  indexes : list string
}.

(** The content of a file that was just created. *)
Definition empty_database : database :=
  {| url_table := None; indexes := [] |}.

(** What sits at a storage path: nothing the engine can open, a database
    file, or a database file whose statements the engine compiles but
    cannot run (the file is locked by another process, a page of it cannot
    be read), with the codes of the error the engine then gives.  A path
    with no file yet is [File empty_database]: the engine creates the file
    when the first statement is prepared. *)
Inductive location : Set :=
| Inaccessible
| File (d : database)
| Failing (d : database) (Code ExtendedCode : Z).

(** A value bound to a [?] of a statement. *)
Inductive value : Set :=
| NULL
| TEXT (s : string).

(** The driver binds a Go string as TEXT, the empty string included. *)
Definition bind (s : string) : value := TEXT s.

(** The statements the package writes. *)
Inductive statement : Set :=
| CREATE_TABLE_url
    (* CREATE TABLE IF NOT EXISTS url(id INTEGER PRIMARY KEY,
         alias TEXT NOT NULL UNIQUE, url TEXT NOT NULL) *)
| CREATE_INDEX (name : string)
    (* CREATE INDEX IF NOT EXISTS name ON url(alias) *)
| INSERT_url
    (* INSERT INTO url(url, alias) VALUES(?, ?) *)
| SELECT_url
    (* SELECT url FROM url WHERE alias = ? *)
| DELETE_url.
    (* DELETE FROM url WHERE alias = ? *)

(** A statement text is cut at its semicolons; a piece is a statement or
    text that is no statement. *)
Inductive piece : Set :=
| Sql (s : statement)
| Unparsable (text : string).

Record query : Set := mkQuery { q_first : piece; q_rest : list piece }.

(** One statement alone. *)
Definition single (s : statement) : query :=
  {| q_first := Sql s; q_rest := [] |}.

(** A prepared statement of the driver: the compiled first statement of the
    text, and the text left after it. *)
Record Stmt : Set := mkStmt { compiled : statement; tail : list piece }.

(** driver.Result. *)
Record Result : Set := mkResult { lastInsertId : Z; rowsAffected : Z }.

(** The name of the index the engine makes for the UNIQUE column. *)
Definition autoindex : string := "sqlite_autoindex_url_1".

(** The largest row id the engine can give. *)
Definition MAX_ROWID : Z := 9223372036854775807.

Definition alias_is (a : string) (r : row) : bool := String.eqb (row_alias r) a.

(** The live records of an alias. *)
Definition live (rows : list row) (a : string) : list row :=
  filter (alias_is a) rows.

(** The rows that are not records of an alias. *)
Definition without (rows : list row) (a : string) : list row :=
  filter (fun r => negb (alias_is a r)) rows.

(** The largest row id in use; [None] on an empty table. *)
Definition largest_rowid (rows : list row) : option Z :=
  match rows with
  | [] => None
  | r :: rest => Some (fold_left Z.max (map row_id rest) (row_id r))
  end.

(** One more than the largest row id in use, 1 on an empty table. *)
Definition next_rowid (rows : list row) : Z :=
  match largest_rowid rows with
  | None => 1
  | Some v => v + 1
  end.

Definition rowid_used (rows : list row) (v : Z) : bool :=
  existsb (fun r => row_id r =? v) rows.

(** How many values a statement takes. *)
Definition NumInput (s : statement) : nat :=
  match s with
  | CREATE_TABLE_url | CREATE_INDEX _ => 0%nat
  | INSERT_url => 2%nat
  | SELECT_url | DELETE_url => 1%nat
  end.

(** A statement other than the CREATE TABLE names a table that has to be
    there when the statement is compiled. *)
Definition needs_table (s : statement) : bool :=
  match s with
  | CREATE_TABLE_url => false
  | _ => true
  end.

Definition syntax_error : error :=
  sqlite3_Error sqlite3.ErrError sqlite3.ErrError.

Definition no_such_table : error :=
  sqlite3_Error sqlite3.ErrError sqlite3.ErrError.

Definition unable_to_open : error :=
  sqlite3_Error sqlite3.ErrCantOpen sqlite3.ErrCantOpen.

Definition wrong_arguments : error :=
  errorString "sql: wrong number of arguments".

(** *Storage: the handle on the database at the storage path. *)
Record Storage : Set := mkStorage { db : location }.

(** The rows behind a handle: [None] when the file cannot be opened, has
    no table url, or is one the engine cannot run a statement on. *)
Definition table_of (s : Storage) : option (list row) :=
  match db s with
  | Inaccessible => None
  | File d => url_table d
  | Failing _ _ _ => None
  end.

(** The index names behind a handle. *)
Definition indexes_of (s : Storage) : list string :=
  match db s with
  | Inaccessible => []
  | File d => indexes d
  | Failing d _ _ => indexes d
  end.

(** At most one live record for each alias. *)
Definition one_per_alias (rows : list row) : Prop :=
  forall a, (List.length (live rows a) <= 1)%nat.

(** The same, checked by running through the rows. *)
Fixpoint one_per_aliasb (rows : list row) : bool :=
  match rows with
  | [] => true
  | r :: rest =>
      negb (existsb (alias_is (row_alias r)) rest) && one_per_aliasb rest
  end.

(** The invariant on a handle; it says nothing of a handle with no table. *)
Definition unique_aliases (s : Storage) : Prop :=
  match table_of s with
  | Some rows => one_per_alias rows
  | None => True
  end.

(** The table is there and its largest row id is not the largest possible
    one: the next insert gets [next_rowid], with no random search. *)
Definition rowid_in_sequence (s : Storage) : bool :=
  match table_of s with
  | Some rows =>
      match largest_rowid rows with
      | None => true
      | Some v => v <? MAX_ROWID
      end
  | None => false
  end.

(** The handle on the same file with other rows in its table. *)
Definition with_rows (s : Storage) (rows : list row) : Storage :=
  {| db := File {| url_table := Some rows; indexes := indexes_of s |} |}.

(** The storage New gives on a path with no file yet, and that storage
    with alias ex1 saved. *)
Definition new_storage : Storage :=
  {| db := File {| url_table := Some []; indexes := [autoindex] |} |}.

Definition ex1_saved : Storage :=
  with_rows new_storage [mkRow 1 "ex1" "https://example.com"].

(** A source of random numbers that gives none; the runs below never ask
    it for one. *)
Definition draws_nothing : list row -> list Z := fun _ => [].

(** The database file New leaves: the table is there, with the rows it
    had; the index of the UNIQUE column comes with a new table. *)
Definition ensured (d : database) : database :=
  match url_table d with
  | Some _ => d
  | None => {| url_table := Some []; indexes := autoindex :: indexes d |}
  end.

(** What SaveURL, GetURL and DeleteURL are called with, for runs of several
    calls. *)
Inductive call : Set :=
| CallSaveURL (urlToSave alias : string)
| CallGetURL (alias : string)
| CallDeleteURL (alias : string).

(** ** Package config *)

(** The settings of the HTTP server; a time.Duration is a number of
    nanoseconds. *)
Record HTTPServer : Set := mkHTTPServer {
  Adress : string;
  Timeout : Z;
  IdleTimeout : Z
}.

(** Config; field [httpServer] is the field HTTPServer of the struct. *)
Record Config : Set := mkConfig {
  Env : string;
  StoragePath : string;
  httpServer : HTTPServer
}.

(** Environment variables: the value of each name that is set. *)
Definition environment : Type := string -> option string.

(** What os.Stat says of a path: the file is there, it is not, or another
    error (no permission, for one). *)
Inductive stat_result : Set :=
| FileInfo
| ErrNotExist
| ErrOther.

(** What the process finds around it: the variables of file ../../.env
    when godotenv can read it, the environment, the file system as os.Stat
    sees it, what cleanenv.ReadConfig makes of a file under an environment
    (a configuration or the text of an error), and what sits at each
    storage path. *)
Record world : Type := mkWorld {
  dotenv : option environment;
  environ : environment;
  stat : string -> stat_result;
  ReadConfig : string -> environment -> Config + string;
  storage_at : string -> location
}.

(** godotenv.Load: the variables of the file are set, except those the
    environment already has; [None] is its error. *)
Definition godotenv_Load (file : option environment) (env : environment)
  : option environment :=
  match file with
  | None => None
  | Some vars =>
      Some (fun key =>
              match env key with
              | Some v => Some v
              | None => vars key
              end)
  end.

(** os.Getenv: the value, or the empty string for a name that is not set. *)
Definition Getenv (env : environment) (key : string) : string :=
  match env key with
  | Some v => v
  | None => ""
  end.

(** A function that returns, or ends the process through log.Fatal: the
    message is printed and the exit status is 1. *)
Inductive exit (A : Type) : Type :=
| Return (a : A)
| Fatal (message : string).
Arguments Return {A} a.
Arguments Fatal {A} message.

(** MustLoad(), with the environment it leaves. *)
Definition MustLoad (w : world) : exit Config * environment :=
  match godotenv_Load (dotenv w) (environ w) with
  | None => (Fatal "Error loading .env file", environ w)
  | Some env =>
      let configPath := Getenv env "CONFIG_PATH" in
      if String.eqb configPath ""
      then (Fatal "CONFIG_PATH is not set", env)
      else
        match stat w configPath with
        | ErrNotExist =>
            (Fatal (String.append "config file does not exist: " configPath),
             env)
        | _ =>
            match ReadConfig w configPath env with
            | inr err =>
                (Fatal (String.append "cannot read config: " err), env)
            | inl cfg => (Return cfg, env)
            end
        end
  end.

(** The path MustLoad reads: CONFIG_PATH of the environment when it is set
    there, else of the .env file, else the empty string. *)
Definition config_path (w : world) (vars : environment) : string :=
  match environ w "CONFIG_PATH" with
  | Some v => v
  | None => Getenv vars "CONFIG_PATH"
  end.

(** ** Command url-shortener: the logger *)

(** The levels of log/slog. *)
Definition LevelDebug : Z := -4.
Definition LevelInfo : Z := 0.
Definition LevelWarn : Z := 4.
Definition LevelError : Z := 8.

(** A handler that writes to the standard output, with the least level it
    lets through: slog's JSON handler, or the handler of package
    slogpretty, which is not among the sources and is kept as the options
    it is made with. *)
Inductive Handler : Set :=
| JSONHandler (Level : Z)
| PrettyHandler (Level : Z).

(** slog.New(handler). *)
Record Logger : Set := mkLogger { handler : Handler }.

Definition envLocal : string := "local".
Definition envDev : string := "dev".
Definition envProd : string := "prod".

(** setupPrettySlog(). *)
Definition setupPrettySlog : Logger :=
  {| handler := PrettyHandler LevelDebug |}.

(** setupLogger(env); [None] is the nil logger the variable keeps when no
    case of the switch is taken. *)
Definition setupLogger (env : string) : option Logger :=
  if String.eqb env envLocal then Some setupPrettySlog
  else if String.eqb env envDev
       then Some {| handler := JSONHandler LevelDebug |}
  else if String.eqb env envProd
       then Some {| handler := JSONHandler LevelInfo |}
  else None.

(** An attribute given to a log call: slog.String(key, value), or
    sl.Err(err) of package sl, which is not among the sources and is kept
    as the error it is made from. *)
Inductive attr : Type :=
| slog_String (key value : string)
| sl_Err (err : error).

(** A call of log.Info, log.Debug or log.Error. *)
Record log_call : Type := mkLogCall {
  call_level : Z;
  call_msg : string;
  call_attrs : list attr
}.

(** How main goes up to the router: the process ends with a status (the
    message is the one of log.Fatal), it panics (with the log calls made
    before the panic and what sits at the storage path at that time), or
    it goes on to the router with its configuration, logger and storage. *)
Inductive startup : Type :=
| Exited (status : Z) (message : option string) (logged : list log_call)
| Panicked (logged : list log_call) (storage_file : location)
| Routing (cfg : Config) (log : Logger) (storage : option Storage)
    (logged : list log_call).

(** The environment after godotenv.Load of the variables [vars]. *)
Definition merged (w : world) (vars : environment) : environment :=
  fun key =>
    match environ w key with
    | Some v => Some v
    | None => vars key
    end.

(** The least level a logger lets through. *)
Definition min_level (log : Logger) : Z :=
  match handler log with
  | JSONHandler Level => Level
  | PrettyHandler Level => Level
  end.

(** The three log calls main makes once it has a logger. *)
Definition first_log_calls (cfg : Config) : list log_call :=
  [ mkLogCall LevelInfo "starting url-shortener"
      [slog_String "env" (Env cfg); slog_String "version" "123"];
    mkLogCall LevelDebug "debug messages are enabled" [];
    mkLogCall LevelError "error messages are enabled" [] ].

(** A configuration, and a world to start in: CONFIG_PATH comes from the
    .env file, the configuration file is there and reads as the
    configuration, and every storage path has no file yet. *)
Definition local_config : Config :=
  {| Env := "local";
     StoragePath := "./storage/storage.db";
     httpServer := {| Adress := "localhost:8080";
                      Timeout := 4000000000;
                      IdleTimeout := 60000000000 |} |}.

Definition local_world : world :=
  {| dotenv := Some (fun key => if String.eqb key "CONFIG_PATH"
                                then Some "./config/local.yaml" else None);
     environ := fun _ => None;
     stat := fun _ => FileInfo;
     ReadConfig := fun _ _ => inl local_config;
     storage_at := fun _ => File empty_database |}.

(** The same world with CONFIG_PATH set to the empty string in the
    environment, and the same world with a configuration file that names
    the environment staging. *)
Definition exported_world : world :=
  {| dotenv := dotenv local_world;
     environ := fun key => if String.eqb key "CONFIG_PATH"
                           then Some "" else None;
     stat := stat local_world;
     ReadConfig := ReadConfig local_world;
     storage_at := storage_at local_world |}.

Definition staging_config : Config :=
  {| Env := "staging";
     StoragePath := StoragePath local_config;
     httpServer := httpServer local_config |}.

Definition staging_world : world :=
  {| dotenv := dotenv local_world;
     environ := environ local_world;
     stat := stat local_world;
     ReadConfig := fun _ _ => inl staging_config;
     storage_at := storage_at local_world |}.

(** The storage with aliases ex1 and ex2 saved. *)
Definition ex2_saved : Storage :=
  with_rows new_storage
    [mkRow 1 "ex1" "https://example.com"; mkRow 2 "ex2" "https://example.com"].

(** The catalog of a database file is the engine's: a table url comes
    with the index of its UNIQUE column. *)
Definition table_has_index (d : database) : bool :=
  match url_table d with
  | Some _ => existsb (String.eqb autoindex) (indexes d)
  | None => true
  end.

Definition catalog_ok (l : location) : bool :=
  match l with
  | Inaccessible => true
  | File d => table_has_index d
  | Failing d _ _ => table_has_index d
  end.

(** The storage with ex1 saved, on which the engine cannot run a statement
    because the file is locked. *)
Definition ex1_locked : Storage :=
  {| db := Failing (mkDatabase (Some [mkRow 1 "ex1" "https://example.com"])
                      [autoindex])
             sqlite3.ErrBusy sqlite3.ErrBusy |}.

(** What an alias resolves to: the url of its live record. *)
Definition resolve (s : Storage) (a : string) : option string :=
  match table_of s with
  | Some rows =>
      match live rows a with
      | r :: _ => Some (row_url r)
      | [] => None
      end
  | None => None
  end.

(** No two records share an id (the PRIMARY KEY of the table). *)
Definition distinct_ids (s : Storage) : Prop :=
  match table_of s with
  | Some rows => NoDup (map row_id rows)
  | None => True
  end.

(** Every id in the table is one the engine gives: from 1 to the largest
    possible id. *)
Definition ids_in_range (s : Storage) : Prop :=
  match table_of s with
  | Some rows => Forall (fun r => 1 <= row_id r <= MAX_ROWID) rows
  | None => True
  end.

(** A call that can change the storage. *)
Definition is_write (c : call) : bool :=
  match c with
  | CallGetURL _ => false
  | _ => true
  end.

Section Engine.

(** The random numbers the engine draws when it has to look for a free
    row id in a table. *)
Variable randomness : list row -> list Z.

(** The id of a row inserted without one.  The column is INTEGER PRIMARY
    KEY without AUTOINCREMENT: 1 on an empty table, else one more than
    the largest id in use; when that is the largest possible id, up to
    100 random positive candidates are tried, and the insert fails with
    SQLITE_FULL when all of them are in use. *)
Definition NewRowid (rows : list row) : result Z :=
  match largest_rowid rows with
  | None => Ok 1
  | Some v =>
      if v >=? MAX_ROWID then
        let candidates :=
          map (fun r => Z.land r (Z.shiftr MAX_ROWID 1) + 1)
              (firstn 100 (randomness rows)) in
        match find (fun c => negb (rowid_used rows c)) candidates with
        | Some c => Ok c
        | None => Err (sqlite3_Error sqlite3.ErrFull sqlite3.ErrFull)
        end
      else Ok (v + 1)
  end.

(** One statement run to its end on a database file.  The [Result] holds
    the id of the inserted row (INSERT) and the number of rows changed
    (INSERT, DELETE). *)
Definition step (d : database) (s : statement) (args : list value)
  : result Result * database :=
  match s with
  | CREATE_TABLE_url =>
      match url_table d with
      | Some _ => (Ok (mkResult 0 0), d)
      | None =>
          (Ok (mkResult 0 0),
           {| url_table := Some []; indexes := autoindex :: indexes d |})
      end
  | CREATE_INDEX name =>
      match url_table d with
      | None => (Err no_such_table, d)
      | Some _ =>
          if existsb (String.eqb name) (indexes d)
          then (Ok (mkResult 0 0), d)
          else (Ok (mkResult 0 0),
                {| url_table := url_table d; indexes := name :: indexes d |})
      end
  | INSERT_url =>
      match url_table d, args with
      | None, _ => (Err no_such_table, d)
      | Some rows, [vurl; valias] =>
          match NewRowid rows with
          | Err e => (Err e, d)
          | Ok v =>
              match vurl, valias with
              | TEXT u, TEXT a =>
                  (* alias TEXT NOT NULL UNIQUE *)
                  if existsb (alias_is a) rows
                  then (Err (sqlite3_Error sqlite3.ErrConstraint
                               sqlite3.ErrConstraintUnique), d)
                  else (Ok (mkResult v 1),
                        {| url_table := Some (rows ++ [mkRow v a u]);
                           indexes := indexes d |})
              | _, _ =>
                  (* NOT NULL on alias and on url *)
                  (Err (sqlite3_Error sqlite3.ErrConstraint
                          sqlite3.ErrConstraintNotNull), d)
              end
          end
      | Some _, _ => (Err wrong_arguments, d)
      end
  | SELECT_url =>
      match url_table d, args with
      | None, _ => (Err no_such_table, d)
      | Some _, [_] => (Ok (mkResult 0 0), d)
      | Some _, _ => (Err wrong_arguments, d)
      end
  | DELETE_url =>
      match url_table d, args with
      | None, _ => (Err no_such_table, d)
      | Some rows, [TEXT a] =>
          (Ok (mkResult 0 (Z.of_nat (List.length (live rows a)))),
           {| url_table := Some (without rows a); indexes := indexes d |})
      | Some rows, [NULL] => (Ok (mkResult 0 0), d)
      | Some _, _ => (Err wrong_arguments, d)
      end
  end.

(** The rows a statement gives back, one value per row: the url column of
    the rows the SELECT matches; the other statements give none. *)
Definition rows_of (d : database) (s : statement) (args : list value)
  : list string :=
  match s, url_table d, args with
  | SELECT_url, Some rows, [TEXT a] => map row_url (live rows a)
  | _, _, _ => []
  end.

(** ** The driver: database/sql over go-sqlite3 *)

(** sql.Open("sqlite3", path) checks the driver name only; nothing is
    opened before the first statement. *)
Definition sql_Open (storagePath : location) : result location :=
  Ok storagePath.

(** A text compiled against the schema of a database file: up to the end
    of its first statement; what follows is kept with the statement as its
    tail and is not looked at. *)
Definition compile (d : database) (q : query) : result Stmt :=
  match q_first q with
  | Unparsable _ => Err syntax_error
  | Sql s =>
      match needs_table s, url_table d with
      | true, None => Err no_such_table
      | _, _ => Ok {| compiled := s; tail := q_rest q |}
      end
  end.

(** DB.Prepare. *)
Definition Prepare (conn : location) (q : query) : result Stmt :=
  match conn with
  | Inaccessible => Err unable_to_open
  | File d => compile d q
  | Failing d _ _ => compile d q
  end.

(** Stmt.Exec: the compiled statement is run; the tail is not. *)
Definition Stmt_Exec (conn : location) (stmt : Stmt) (args : list value)
  : result Result * location :=
  match conn with
  | Inaccessible => (Err unable_to_open, conn)
  | File d =>
      let (r, d') := step d (compiled stmt) args in (r, File d')
  | Failing _ Code ExtendedCode =>
      (Err (sqlite3_Error Code ExtendedCode), conn)
  end.

(** Stmt.QueryRow(args).Scan(&dest) with a string destination: the
    statement is run, the first row it gives is stored, and
    sql.ErrNoRows is the error when it gives none; when the engine fails
    while it runs the statement, the error is the engine's. *)
Definition Stmt_QueryRow_Scan (conn : location) (stmt : Stmt)
    (args : list value) : result string * location :=
  match conn with
  | Inaccessible => (Err unable_to_open, conn)
  | File d =>
      match step d (compiled stmt) args with
      | (Err e, d') => (Err e, File d')
      | (Ok _, d') =>
          match rows_of d (compiled stmt) args with
          | [] => (Err sql_ErrNoRows, File d')
          | v :: _ => (Ok v, File d')
          end
      end
  | Failing _ Code ExtendedCode =>
      (Err (sqlite3_Error Code ExtendedCode), conn)
  end.

(** DB.Exec: every statement of the text is compiled and run in turn,
    each taking its share of the arguments; the result is the one of the
    last statement. *)
Fixpoint exec_all (d : database) (ps : list piece) (args : list value)
    (last : Result) : result Result * database :=
  match ps with
  | [] => (Ok last, d)
  | Unparsable _ :: _ => (Err syntax_error, d)
  | Sql s :: rest =>
      match needs_table s, url_table d with
      | true, None => (Err no_such_table, d)
      | _, _ =>
          match step d s (firstn (NumInput s) args) with
          | (Err e, d') => (Err e, d')
          | (Ok r, d') => exec_all d' rest (skipn (NumInput s) args) r
          end
      end
  end.

Definition DB_Exec (conn : location) (q : query) (args : list value)
  : result Result * location :=
  match conn with
  | Inaccessible => (Err unable_to_open, conn)
  | File d =>
      let (r, d') := exec_all d (q_first q :: q_rest q) args (mkResult 0 0)
      in (r, File d')
  | Failing d Code ExtendedCode =>
      match compile d q with
      | Err e => (Err e, conn)
      | Ok _ => (Err (sqlite3_Error Code ExtendedCode), conn)
      end
  end.

(** Result.LastInsertId and Result.RowsAffected of the driver give the
    stored number and no error. *)
Definition LastInsertId (res : Result) : result Z := Ok (lastInsertId res).
Definition RowsAffected (res : Result) : result Z := Ok (rowsAffected res).

(** ** Package sqlite *)

(** The text New prepares: the CREATE TABLE, then the CREATE INDEX, then
    a closing parenthesis after the last semicolon. *)
Definition schema_text : query :=
  {| q_first := Sql CREATE_TABLE_url;
     q_rest := [Sql (CREATE_INDEX "idx_alias"); Unparsable ")"] |}.

(** New(storagePath).  The argument is what sits at the path. *)
Definition New (storagePath : location) : option Storage * option error :=
  let op := "storage.sqlite.New" in
  match sql_Open storagePath with
  | Err err => (None, Some (fmt_Errorf "%s: %w" op err))
  | Ok db =>
      match Prepare db schema_text with
      | Err err => (None, Some (fmt_Errorf "%s: %w" op err))
      | Ok stmt =>
          match Stmt_Exec db stmt [] with
          | (Err err, _) => (None, Some (fmt_Errorf "%s: %w" op err))
          | (Ok _, db') => (Some {| db := db' |}, None)
          end
      end
  end.

(** (s *Storage) SaveURL(urlToSave, alias). *)
Definition SaveURL (s : Storage) (urlToSave alias : string)
  : (Z * option error) * Storage :=
  let op := "storage.sqlite.SaveURL" in
  match Prepare (db s) (single INSERT_url) with
  | Err err => ((0, Some (fmt_Errorf "%s: %w" op err)), s)
  | Ok stmt =>
      match Stmt_Exec (db s) stmt [bind urlToSave; bind alias] with
      | (Err err, db') =>
          match err with
          | sqlite3_Error _ ExtendedCode =>
              if ExtendedCode =? sqlite3.ErrConstraintUnique
              then ((0, Some (fmt_Errorf "%s: %w" op
                                (storage_error storage.ErrURLExists))),
                    {| db := db' |})
              else ((0, Some (fmt_Errorf "%s: %w" op err)), {| db := db' |})
          | _ => ((0, Some (fmt_Errorf "%s: %w" op err)), {| db := db' |})
          end
      | (Ok res, db') =>
          match LastInsertId res with
          | Err err =>
              ((0, Some (fmt_Errorf "%s: failed to get last insert id: %w"
                           op err)),
               {| db := db' |})
          | Ok id => ((id, None), {| db := db' |})
          end
      end
  end.

(** (s *Storage) GetURL(alias). *)
Definition GetURL (s : Storage) (alias : string)
  : (string * option error) * Storage :=
  let op := "storage.sqlite.GetURL" in
  match Prepare (db s) (single SELECT_url) with
  | Err err =>
      (("", Some (fmt_Errorf "%s: prepare statement: %w" op err)), s)
  | Ok stmt =>
      match Stmt_QueryRow_Scan (db s) stmt [bind alias] with
      | (Err err, db') =>
          if errors_Is err sql_ErrNoRows
          then (("", Some (storage_error storage.ErrURLNotFound)),
                {| db := db' |})
          else (("", Some (fmt_Errorf "%s: execute statement: %w" op err)),
                {| db := db' |})
      | (Ok resURL, db') => ((resURL, None), {| db := db' |})
      end
  end.

(** (s *Storage) DeleteURL(alias). *)
Definition DeleteURL (s : Storage) (alias : string)
  : (Z * option error) * Storage :=
  let fn := "storage.sqlite.DeleteURL" in
  match DB_Exec (db s) (single DELETE_url) [bind alias] with
  | (Err err, db') =>
      ((0, Some (fmt_Errorf "%s: execute statement %w" fn err)),
       {| db := db' |})
  | (Ok result, db') =>
      match RowsAffected result with
      | Err err =>
          ((0, Some (fmt_Errorf "%s: get rows affected: %w" fn err)),
           {| db := db' |})
      | Ok rowsAffected => ((rowsAffected, None), {| db := db' |})
      end
  end.

(** The engine has a row id to give to the next insert. *)
Definition rowid_available (s : Storage) : bool :=
  match table_of s with
  | Some rows =>
      match NewRowid rows with
      | Ok _ => true
      | Err _ => false
      end
  | None => false
  end.

(** ** Runs of calls *)

(** The storage after one call, its result dropped. *)
Definition after (s : Storage) (c : call) : Storage :=
  match c with
  | CallSaveURL u a => snd (SaveURL s u a)
  | CallGetURL a => snd (GetURL s a)
  | CallDeleteURL a => snd (DeleteURL s a)
  end.

(** The storage after a run of calls, one after the other. *)
Definition run (s : Storage) (calls : list call) : Storage :=
  fold_left after calls s.

(** SaveURL(u, alias) for each u of a list, one call after the other: the
    results in the order of the calls, and the storage at the end. *)
Fixpoint SaveURL_each (s : Storage) (alias : string) (urls : list string)
  : list (Z * option error) * Storage :=
  match urls with
  | [] => ([], s)
  | u :: rest =>
      let (r, s1) := SaveURL s u alias in
      let (rs, s2) := SaveURL_each s1 alias rest in
      (r :: rs, s2)
  end.

(** ** Command url-shortener *)

(** main(), from its start to the creation of the router.  A log call on
    the nil logger panics. *)
Definition main_until_router (w : world) : startup :=
  match fst (MustLoad w) with
  | Fatal message => Exited 1 (Some message) []
  | Return cfg =>
      match setupLogger (Env cfg) with
      | None => Panicked [] (storage_at w (StoragePath cfg))
      | Some log =>
          let logged :=
            [ mkLogCall LevelInfo "starting url-shortener"
                [slog_String "env" (Env cfg); slog_String "version" "123"];
              mkLogCall LevelDebug "debug messages are enabled" [];
              mkLogCall LevelError "error messages are enabled" [] ] in
          match New (storage_at w (StoragePath cfg)) with
          | (_, Some err) =>
              Exited 1 None
                (logged ++ [mkLogCall LevelError "failed to init storage"
                              [sl_Err err]])
          | (storage, None) => Routing cfg log storage logged
          end
      end
  end.

(** ** Facts on rows *)

Lemma existsb_live (rows : list row) (a : string) :
  existsb (alias_is a) rows = false <-> live rows a = [].
Proof.
  unfold live. induction rows as [|r rows IH]; simpl.
  - tauto.
  - destruct (alias_is a r); simpl.
    + split; discriminate.
    + exact IH.
Qed.

Lemma live_app (rows rows' : list row) (a : string) :
  live (rows ++ rows') a = live rows a ++ live rows' a.
Proof. apply filter_app. Qed.

Lemma alias_is_refl (v : Z) (a u : string) : alias_is a (mkRow v a u) = true.
Proof. unfold alias_is; simpl. apply String.eqb_refl. Qed.

Lemma alias_is_other (v : Z) (a a' u : string) :
  a <> a' -> alias_is a' (mkRow v a u) = false.
Proof. unfold alias_is; simpl. intro H. apply String.eqb_neq. exact H. Qed.

Lemma without_absent (rows : list row) (a : string) :
  live rows a = [] -> without rows a = rows.
Proof.
  unfold live, without. induction rows as [|r rows IH]; simpl; intro H.
  - reflexivity.
  - destruct (alias_is a r); simpl in *.
    + discriminate.
    + now rewrite IH.
Qed.

Lemma live_without_same (rows : list row) (a : string) :
  live (without rows a) a = [].
Proof.
  unfold live, without. induction rows as [|r rows IH]; simpl.
  - reflexivity.
  - destruct (alias_is a r) eqn:E; simpl.
    + exact IH.
    + rewrite E. exact IH.
Qed.

Lemma live_without_length (rows : list row) (a a' : string) :
  (List.length (live (without rows a) a') <= List.length (live rows a'))%nat.
Proof.
  unfold live, without. induction rows as [|r rows IH]; simpl.
  - lia.
  - destruct (alias_is a r); destruct (alias_is a' r) eqn:E; simpl;
      rewrite ?E; simpl; lia.
Qed.

Lemma one_per_alias_insert (rows : list row) (v : Z) (a u : string) :
  one_per_alias rows -> live rows a = [] ->
  one_per_alias (rows ++ [mkRow v a u]).
Proof.
  intros Hinv Hfree a'. rewrite live_app. simpl.
  destruct (String.eqb_spec a a') as [->|Hne].
  - rewrite Hfree, alias_is_refl. simpl. lia.
  - rewrite (alias_is_other v a a' u Hne), app_nil_r. apply Hinv.
Qed.

Lemma one_per_alias_without (rows : list row) (a : string) :
  one_per_alias rows -> one_per_alias (without rows a).
Proof.
  intros Hinv a'. specialize (Hinv a').
  pose proof (live_without_length rows a a'). lia.
Qed.

Lemma one_per_aliasb_spec (rows : list row) :
  one_per_aliasb rows = true -> one_per_alias rows.
Proof.
  induction rows as [|r rows IH]; simpl; intros H a.
  - simpl. lia.
  - apply andb_prop in H as [Hr Hrest]. specialize (IH Hrest a).
    unfold live in *. simpl. destruct (alias_is a r) eqn:E; simpl.
    + unfold alias_is in E. apply String.eqb_eq in E. subst a.
      apply negb_true_iff in Hr. apply existsb_live in Hr.
      unfold live in Hr. rewrite Hr. simpl. lia.
    + exact IH.
Qed.

Lemma NewRowid_in_sequence (s : Storage) (rows : list row) :
  table_of s = Some rows -> rowid_in_sequence s = true ->
  NewRowid rows = Ok (next_rowid rows).
Proof.
  unfold rowid_in_sequence, NewRowid, next_rowid. intros -> Hseq.
  destruct (largest_rowid rows) as [v|]; [|reflexivity].
  apply Z.ltb_lt in Hseq.
  destruct (v >=? MAX_ROWID) eqn:E; [|reflexivity].
  apply Z.geb_le in E. lia.
Qed.

Lemma NewRowid_Err (rows : list row) (e : error) :
  NewRowid rows = Err e -> e = sqlite3_Error sqlite3.ErrFull sqlite3.ErrFull.
Proof.
  unfold NewRowid. destruct (largest_rowid rows) as [m|]; [|discriminate].
  destruct (m >=? MAX_ROWID); [|discriminate].
  destruct (find _ _); [discriminate|]. intro H. now injection H as <-.
Qed.

Lemma rowid_in_sequence_available (s : Storage) :
  rowid_in_sequence s = true -> rowid_available s = true.
Proof.
  intro Hseq. unfold rowid_available.
  destruct (table_of s) as [rows|] eqn:Ht.
  - now rewrite (NewRowid_in_sequence s rows Ht Hseq).
  - unfold rowid_in_sequence in Hseq. rewrite Ht in Hseq. discriminate.
Qed.

(** ** What each call does on a working storage *)

Ltac open_storage s :=
  let d := fresh "d" in
  let t := fresh "t" in
  let ix := fresh "ix" in
  destruct s as [[|[t ix]|[t ix] c0 x0]]; unfold table_of, indexes_of, with_rows in *;
  simpl in *; try discriminate.

Lemma SaveURL_fresh (s : Storage) (rows : list row) (u a : string) (v : Z) :
  table_of s = Some rows -> live rows a = [] -> NewRowid rows = Ok v ->
  SaveURL s u a = ((v, None), with_rows s (rows ++ [mkRow v a u])).
Proof.
  intros Ht Hfree Hid. open_storage s. subst t.
  apply existsb_live in Hfree.
  unfold SaveURL, Stmt_Exec; simpl. rewrite Hid, Hfree. reflexivity.
Qed.

Lemma SaveURL_taken (s : Storage) (rows : list row) (u a : string) (v : Z) :
  table_of s = Some rows -> live rows a <> [] -> NewRowid rows = Ok v ->
  SaveURL s u a =
    ((0, Some (fmt_Errorf "%s: %w" "storage.sqlite.SaveURL"
                 (storage_error storage.ErrURLExists))), s).
Proof.
  intros Ht Hlive Hid. open_storage s. subst t.
  destruct (existsb (alias_is a) rows) eqn:E.
  - unfold SaveURL, Stmt_Exec; simpl. rewrite Hid, E. reflexivity.
  - apply existsb_live in E. contradiction.
Qed.

Lemma SaveURL_ok_inv (s s1 : Storage) (u a : string) (v : Z) :
  SaveURL s u a = ((v, None), s1) ->
  exists rows,
    table_of s = Some rows /\ live rows a = [] /\ NewRowid rows = Ok v /\
    s1 = with_rows s (rows ++ [mkRow v a u]).
Proof.
  intro H. destruct s as [[|[t ix]|[t ix] c0 x0]]; unfold SaveURL in H; simpl in H.
  - discriminate.
  - destruct t as [rows|]; simpl in H; [|discriminate].
    unfold Stmt_Exec in H; simpl in H.
    destruct (NewRowid rows) as [w|e] eqn:Hid.
    + destruct (existsb (alias_is a) rows) eqn:E; simpl in H.
      * discriminate.
      * injection H as <- <-. exists rows. apply existsb_live in E.
        unfold table_of, with_rows, indexes_of; simpl. auto.
    + destruct e; simpl in H; try discriminate.
      destruct (ExtendedCode =? sqlite3.ErrConstraintUnique); discriminate.
  - destruct t as [rows|]; simpl in H; [|discriminate].
    unfold Stmt_Exec in H; simpl in H.
    destruct (x0 =? sqlite3.ErrConstraintUnique); discriminate.
Qed.

Lemma GetURL_present (s : Storage) (rows rest : list row) (r : row)
    (a : string) :
  table_of s = Some rows -> live rows a = r :: rest ->
  GetURL s a = ((row_url r, None), s).
Proof.
  intros Ht Hlive. open_storage s. subst t.
  unfold GetURL, Stmt_QueryRow_Scan; simpl. rewrite Hlive. reflexivity.
Qed.

Lemma GetURL_absent (s : Storage) (rows : list row) (a : string) :
  table_of s = Some rows -> live rows a = [] ->
  GetURL s a = (("", Some (storage_error storage.ErrURLNotFound)), s).
Proof.
  intros Ht Hlive. open_storage s. subst t.
  unfold GetURL, Stmt_QueryRow_Scan; simpl. rewrite Hlive. reflexivity.
Qed.

(** GetURL on a storage that does not work: the error of the engine,
    wrapped with the operation name, from the Prepare when the file cannot
    be opened or has no table, from the query when the engine cannot run
    it. *)
Lemma GetURL_broken (s : Storage) (a : string) :
  table_of s = None ->
  exists format c x,
    (format = "%s: prepare statement: %w"
     \/ format = "%s: execute statement: %w")
    /\ GetURL s a =
         (("", Some (fmt_Errorf format "storage.sqlite.GetURL"
                       (sqlite3_Error c x))), s).
Proof.
  intro Ht.
  destruct s as [[|[t ix]|[[rows|] ix] c0 x0]]; unfold table_of in Ht;
    simpl in Ht.
  - exists "%s: prepare statement: %w", sqlite3.ErrCantOpen,
      sqlite3.ErrCantOpen. split; [now left | reflexivity].
  - subst t. exists "%s: prepare statement: %w", sqlite3.ErrError,
      sqlite3.ErrError. split; [now left | reflexivity].
  - exists "%s: execute statement: %w", c0, x0.
    split; [now right | reflexivity].
  - exists "%s: prepare statement: %w", sqlite3.ErrError,
      sqlite3.ErrError. split; [now left | reflexivity].
Qed.

(** A query the engine cannot run: GetURL returns the error of the engine
    wrapped with the operation name, and the storage as it was. *)
Lemma GetURL_Failing (rows : list row) (ix : list string) (c x : Z)
    (a : string) :
  GetURL {| db := Failing (mkDatabase (Some rows) ix) c x |} a =
    (("", Some (fmt_Errorf "%s: execute statement: %w"
                  "storage.sqlite.GetURL" (sqlite3_Error c x))),
     {| db := Failing (mkDatabase (Some rows) ix) c x |}).
Proof. reflexivity. Qed.

Lemma DeleteURL_ready (s : Storage) (rows : list row) (a : string) :
  table_of s = Some rows ->
  DeleteURL s a =
    ((Z.of_nat (List.length (live rows a)), None),
     with_rows s (without rows a)).
Proof.
  intro Ht. open_storage s. subst t. reflexivity.
Qed.

Lemma table_of_with_rows (s : Storage) (rows : list row) :
  table_of (with_rows s rows) = Some rows.
Proof. reflexivity. Qed.

Lemma with_rows_same (s : Storage) (rows : list row) :
  table_of s = Some rows -> with_rows s rows = s.
Proof. intro Ht. open_storage s. now subst t. Qed.

Lemma with_rows_twice (s : Storage) (rows rows' : list row) :
  with_rows (with_rows s rows) rows' = with_rows s rows'.
Proof. reflexivity. Qed.

(** ** The contract of the three operations *)

(** C1 (uniqueness).  After a successful SaveURL(u1, a), a SaveURL(u2, a)
    on the resulting storage, the engine having a row id to give, returns
    id 0 and storage.ErrURLExists wrapped with the operation name: the
    engine's own error value is not in the chain.  The storage is left as
    it was, and GetURL(a) on it returns u1. *)
Theorem SaveURL_twice_ErrURLExists (s s1 : Storage) (u1 u2 a : string)
    (id1 : Z) :
  SaveURL s u1 a = ((id1, None), s1) ->
  rowid_available s1 = true ->
  SaveURL s1 u2 a =
    ((0, Some (fmt_Errorf "%s: %w" "storage.sqlite.SaveURL"
                 (storage_error storage.ErrURLExists))), s1)
  /\ (forall e, snd (fst (SaveURL s1 u2 a)) = Some e ->
        errors_Is e (storage_error storage.ErrURLExists) = true
        /\ forall c x, errors_Is e (sqlite3_Error c x) = false)
  /\ GetURL (snd (SaveURL s1 u2 a)) a = ((u1, None), s1).
Proof.
  intros Hsave Hroom.
  apply SaveURL_ok_inv in Hsave as (rows & Ht & Hfree & Hid & ->).
  set (s1 := with_rows s (rows ++ [mkRow id1 a u1])) in *.
  assert (Hlive : live (rows ++ [mkRow id1 a u1]) a = [mkRow id1 a u1]).
  { rewrite live_app, Hfree. simpl. now rewrite alias_is_refl. }
  unfold rowid_available, s1, table_of, with_rows in Hroom; simpl in Hroom.
  destruct (NewRowid (rows ++ [mkRow id1 a u1])) as [v|] eqn:Hid2;
    [|discriminate].
  assert (Hsecond : SaveURL s1 u2 a =
    ((0, Some (fmt_Errorf "%s: %w" "storage.sqlite.SaveURL"
                 (storage_error storage.ErrURLExists))), s1)).
  { apply (SaveURL_taken s1 _ u2 a v (table_of_with_rows s _)); [|exact Hid2].
    rewrite Hlive. discriminate. }
  rewrite Hsecond. simpl. repeat split.
  - injection H as <-. reflexivity.
  - injection H as <-. reflexivity.
  - apply (GetURL_present s1 _ [] (mkRow id1 a u1) a
             (table_of_with_rows s _) Hlive).
Qed.

(** C2 (round trip).  On a working storage with no live record of alias
    a and a row id to give, SaveURL(u, a) with non-empty u and a succeeds,
    and GetURL(a) right after it returns u. *)
Theorem SaveURL_then_GetURL (s : Storage) (rows : list row) (u a : string) :
  table_of s = Some rows ->
  u <> "" -> a <> "" ->
  live rows a = [] ->
  rowid_available s = true ->
  exists id s1,
    SaveURL s u a = ((id, None), s1) /\ GetURL s1 a = ((u, None), s1).
Proof.
  intros Ht _ _ Hfree Hroom. unfold rowid_available in Hroom.
  rewrite Ht in Hroom.
  destruct (NewRowid rows) as [v|] eqn:Hid; [|discriminate].
  exists v, (with_rows s (rows ++ [mkRow v a u])). split.
  - apply (SaveURL_fresh s rows u a v Ht Hfree Hid).
  - apply (GetURL_present _ _ [] (mkRow v a u) a (table_of_with_rows s _)).
    rewrite live_app, Hfree. simpl. now rewrite alias_is_refl.
Qed.

(** C3 (delete).  On a working storage DeleteURL(a) returns no error:
    with no live record of a the count is 0 and the table is as before;
    with a live record, at most one record being live per alias, the
    count is 1 and GetURL(a) on the resulting storage returns
    storage.ErrURLNotFound. *)
Theorem DeleteURL_counts (s : Storage) (rows : list row) (a : string) :
  table_of s = Some rows ->
  unique_aliases s ->
  (live rows a = [] -> DeleteURL s a = ((0, None), s))
  /\ (live rows a <> [] ->
      exists s1,
        DeleteURL s a = ((1, None), s1)
        /\ GetURL s1 a =
             (("", Some (storage_error storage.ErrURLNotFound)), s1)).
Proof.
  intros Ht Hinv. rewrite (DeleteURL_ready s rows a Ht). split.
  - intro Hnone. rewrite Hnone, (without_absent rows a Hnone).
    now rewrite (with_rows_same s rows Ht).
  - intro Hsome. exists (with_rows s (without rows a)). split.
    + unfold unique_aliases in Hinv. rewrite Ht in Hinv.
      specialize (Hinv a). destruct (live rows a) as [|r [|r' rest]].
      * contradiction.
      * reflexivity.
      * simpl in Hinv. lia.
    + apply (GetURL_absent _ (without rows a) a (table_of_with_rows s _)).
      apply live_without_same.
Qed.

(** C4 (not found).  On a working storage GetURL of an alias with no live
    record returns the bare sentinel storage.ErrURLNotFound.  That error
    tells a missing alias from a broken storage: whenever errors.Is
    finds storage.ErrURLNotFound in an error of GetURL, the storage works
    and the alias has no live record.  On the same table, when the engine
    fails while it runs the query, GetURL returns the error of the engine
    wrapped with the operation name, in which errors.Is finds no
    storage.ErrURLNotFound, for the alias with no live record as for any
    other. *)
Theorem GetURL_ErrURLNotFound (s : Storage) (rows : list row) (a : string) :
  table_of s = Some rows ->
  live rows a = [] ->
  GetURL s a = (("", Some (storage_error storage.ErrURLNotFound)), s)
  /\ (forall s' a' e,
        snd (fst (GetURL s' a')) = Some e ->
        errors_Is e (storage_error storage.ErrURLNotFound) = true ->
        exists rows', table_of s' = Some rows' /\ live rows' a' = [])
  /\ (forall c x a',
        let broken := {| db := Failing (mkDatabase (Some rows) (indexes_of s))
                                 c x |} in
        GetURL broken a' =
          (("", Some (fmt_Errorf "%s: execute statement: %w"
                        "storage.sqlite.GetURL" (sqlite3_Error c x))),
           broken)
        /\ errors_Is (fmt_Errorf "%s: execute statement: %w"
                        "storage.sqlite.GetURL" (sqlite3_Error c x))
             (storage_error storage.ErrURLNotFound) = false).
Proof.
  intros Ht Hnone. split; [|split].
  - exact (GetURL_absent s rows a Ht Hnone).
  - intros s' a' e He His.
    destruct (table_of s') as [rows'|] eqn:Ht'.
    + exists rows'. split; [reflexivity|].
      destruct (live rows' a') as [|r rest] eqn:Hlive; [reflexivity|].
      rewrite (GetURL_present s' rows' rest r a' Ht' Hlive) in He.
      discriminate.
    + destruct (GetURL_broken s' a' Ht') as (format & c & x & _ & Hget).
      rewrite Hget in He. simpl in He. injection He as <-. discriminate.
  - intros c x a'. split; reflexivity.
Qed.

(** C10 (no validation).  SaveURL does not look at its strings: with an
    empty alias or an empty target, on a working storage where the alias
    has no live record and a row id is to give, it inserts the record as
    given and succeeds, and GetURL of that alias (the empty one included)
    returns the saved target. *)
Theorem SaveURL_accepts_empty (s : Storage) (rows : list row)
    (u a : string) :
  table_of s = Some rows ->
  u = "" \/ a = "" ->
  live rows a = [] ->
  rowid_available s = true ->
  exists id s1,
    SaveURL s u a = ((id, None), s1)
    /\ table_of s1 = Some (rows ++ [mkRow id a u])
    /\ GetURL s1 a = ((u, None), s1).
Proof.
  intros Ht _ Hfree Hroom. unfold rowid_available in Hroom.
  rewrite Ht in Hroom.
  destruct (NewRowid rows) as [v|] eqn:Hid; [|discriminate].
  exists v, (with_rows s (rows ++ [mkRow v a u])). split; [|split].
  - apply (SaveURL_fresh s rows u a v Ht Hfree Hid).
  - reflexivity.
  - apply (GetURL_present _ _ [] (mkRow v a u) a (table_of_with_rows s _)).
    rewrite live_app, Hfree. simpl. now rewrite alias_is_refl.
Qed.

(** ** Saving again after a delete *)

(** C5 (re-creation), as the code has it.  On a working storage with no
    live record of alias a, whose largest row id is not the largest
    possible one, SaveURL(u1, a), DeleteURL(a) and SaveURL(u2, a) all
    succeed and GetURL(a) then returns u2; the two SaveURL calls return
    the same id, one more than the largest id in use (1 on an empty
    table): the id column is INTEGER PRIMARY KEY without AUTOINCREMENT, so
    the id freed by the delete is the next one given. *)
Theorem SaveURL_after_DeleteURL_same_id (s : Storage) (rows : list row)
    (u1 u2 a : string) :
  table_of s = Some rows ->
  live rows a = [] ->
  rowid_in_sequence s = true ->
  exists id1 s1 s2 id2 s3,
    SaveURL s u1 a = ((id1, None), s1)
    /\ DeleteURL s1 a = ((1, None), s2)
    /\ SaveURL s2 u2 a = ((id2, None), s3)
    /\ GetURL s3 a = ((u2, None), s3)
    /\ id1 = next_rowid rows
    /\ id2 = id1.
Proof.
  intros Ht Hfree Hseq.
  pose proof (NewRowid_in_sequence s rows Ht Hseq) as Hid.
  set (v := next_rowid rows) in *.
  assert (Hlive : live (rows ++ [mkRow v a u1]) a = [mkRow v a u1]).
  { rewrite live_app, Hfree. simpl. now rewrite alias_is_refl. }
  assert (Hback : without (rows ++ [mkRow v a u1]) a = rows).
  { unfold without. rewrite filter_app. simpl. rewrite alias_is_refl. simpl.
    rewrite app_nil_r. apply (without_absent rows a Hfree). }
  exists v, (with_rows s (rows ++ [mkRow v a u1])), (with_rows s rows),
    v, (with_rows s (rows ++ [mkRow v a u2])).
  split; [|split; [|split; [|split; [|split]]]].
  - apply (SaveURL_fresh s rows u1 a v Ht Hfree Hid).
  - rewrite (DeleteURL_ready _ _ a (table_of_with_rows s _)).
    rewrite Hlive, Hback. reflexivity.
  - apply (SaveURL_fresh (with_rows s rows) rows u2 a v
             (table_of_with_rows s rows) Hfree Hid).
  - apply (GetURL_present _ _ [] (mkRow v a u2) a (table_of_with_rows s _)).
    rewrite live_app, Hfree. simpl. now rewrite alias_is_refl.
  - reflexivity.
  - reflexivity.
Qed.

(** ** The invariant *)

Lemma after_unique_aliases (s : Storage) (c : call) :
  unique_aliases s -> unique_aliases (after s c).
Proof.
  intro Hinv. destruct (table_of s) as [rows|] eqn:Ht.
  - assert (Hrows : one_per_alias rows).
    { unfold unique_aliases in Hinv. now rewrite Ht in Hinv. }
    destruct c as [u a|a|a]; simpl.
    + destruct (NewRowid rows) as [v|e] eqn:Hid.
      * destruct (live rows a) as [|r rest] eqn:Hlive.
        -- rewrite (SaveURL_fresh s rows u a v Ht Hlive Hid). simpl.
           unfold unique_aliases. rewrite table_of_with_rows.
           now apply one_per_alias_insert.
        -- rewrite (SaveURL_taken s rows u a v Ht); try exact Hid.
           ++ exact Hinv.
           ++ rewrite Hlive. discriminate.
      * open_storage s. subst t.
        unfold SaveURL, Stmt_Exec; simpl. rewrite Hid.
        destruct e; simpl; try exact Hrows.
        destruct (ExtendedCode =? sqlite3.ErrConstraintUnique); exact Hrows.
    + destruct (live rows a) as [|r rest] eqn:Hlive.
      * now rewrite (GetURL_absent s rows a Ht Hlive).
      * now rewrite (GetURL_present s rows rest r a Ht Hlive).
    + rewrite (DeleteURL_ready s rows a Ht). simpl.
      unfold unique_aliases. rewrite table_of_with_rows.
      now apply one_per_alias_without.
  - destruct s as [[|[t ix]|[[rows|] ix] c0 x0]]; unfold table_of in Ht;
      simpl in Ht.
    + destruct c; exact I.
    + subst t. destruct c; exact I.
    + destruct c as [u a|a|a]; simpl; try exact I.
      unfold SaveURL, Stmt_Exec; simpl.
      destruct (x0 =? sqlite3.ErrConstraintUnique); exact I.
    + destruct c; exact I.
Qed.

(** ** New *)

Lemma New_File (d : database) :
  New (File d) = (Some {| db := File (ensured d) |}, None).
Proof.
  unfold New, Stmt_Exec, ensured; simpl. now destruct (url_table d).
Qed.

Lemma New_Inaccessible :
  New Inaccessible =
    (None, Some (fmt_Errorf "%s: %w" "storage.sqlite.New" unable_to_open)).
Proof. reflexivity. Qed.

(** New keeps the rows it finds, and a second New on the file the first
    one left changes nothing. *)
Lemma New_keeps_rows (d : database) (rows : list row) :
  url_table d = Some rows ->
  New (File d) = (Some {| db := File d |}, None).
Proof.
  intro Ht. rewrite New_File. unfold ensured. now rewrite Ht.
Qed.

Lemma New_again (d : database) (s : Storage) :
  New (File d) = (Some s, None) -> New (db s) = (Some s, None).
Proof.
  rewrite New_File. intro H. injection H as <-. simpl.
  rewrite New_File. unfold ensured.
  destruct (url_table d) eqn:Ht; simpl; now rewrite ?Ht.
Qed.

(** New on any database file returns a handle and no error, the table is
    there with the rows the file had, and the catalog holds the index
    idx_alias after New only if it held it before: the CREATE INDEX
    statement of the text is never run. *)
Theorem New_never_creates_idx_alias (d : database) :
  exists s,
    New (File d) = (Some s, None)
    /\ table_of s =
         Some (match url_table d with Some rows => rows | None => [] end)
    /\ existsb (String.eqb "idx_alias") (indexes_of s) =
         existsb (String.eqb "idx_alias") (indexes d).
Proof.
  exists {| db := File (ensured d) |}. rewrite New_File.
  unfold ensured, table_of, indexes_of.
  destruct (url_table d) eqn:Ht; simpl; rewrite ?Ht; auto.
Qed.


(** The catalog stays the engine's: SaveURL, GetURL and DeleteURL keep the
    index of the UNIQUE column with the table. *)
Lemma after_catalog_ok (s : Storage) (c : call) :
  catalog_ok (db s) = true -> catalog_ok (db (after s c)) = true.
Proof.
  intro Hok.
  destruct s as [[|[[rows|] ix]|[[rows|] ix] c0 x0]];
    destruct c as [u a|a|a]; simpl in *; try exact Hok;
    unfold SaveURL, GetURL, Stmt_Exec, Stmt_QueryRow_Scan; simpl.
  - destruct (NewRowid rows) as [v|e] eqn:Hid.
    + destruct (existsb (alias_is a) rows); simpl; exact Hok.
    + rewrite (NewRowid_Err rows e Hid). simpl. exact Hok.
  - destruct (live rows a); simpl; exact Hok.
  - destruct (x0 =? sqlite3.ErrConstraintUnique); exact Hok.
Qed.

(** C7 (invariant).  SaveURL, GetURL and DeleteURL keep the invariant: if
    the storage holds at most one live record for each alias, so does the
    storage after any run of calls, whatever their arguments and
    results; and it holds all along a run that starts from the handle
    New gives on a new file. *)
Theorem run_unique_aliases (s : Storage) (calls : list call) :
  unique_aliases s ->
  unique_aliases (run s calls)
  /\ (forall s0, New (File empty_database) = (Some s0, None) ->
        unique_aliases (run s0 calls)).
Proof.
  assert (Hrun : forall cs t, unique_aliases t -> unique_aliases (run t cs)).
  { unfold run. induction cs as [|c cs IH]; simpl; intros t Hinv.
    - exact Hinv.
    - apply IH. now apply after_unique_aliases. }
  intro Hinv. split.
  - now apply Hrun.
  - intros s0 Hnew. rewrite New_File in Hnew. injection Hnew as <-.
    apply Hrun. intro a. simpl. lia.
Qed.

(** ** Errors and their context *)

(** C8 (error context), as the code has it.  Every error SaveURL and
    DeleteURL return, and every error of GetURL but the not-found one, is
    made by fmt.Errorf with the name of the operation in front and wraps
    its cause.  For SaveURL the cause is storage.ErrURLExists exactly when
    the Exec gave an error of the engine with the extended code of a
    UNIQUE violation, and the error the driver gave otherwise; on a
    working storage that is the error of a full id space when no row id
    is left, the alias taken or not, and storage.ErrURLExists when a row
    id is left and the alias is taken.  For DeleteURL and GetURL the cause
    is the error the driver gave.  The not-found error of GetURL, returned
    when the query gave sql.ErrNoRows, is the bare sentinel
    storage.ErrURLNotFound: it carries no operation name and wraps
    nothing.  The package writes no log: an error reaches the caller as
    the returned value, and when main ends for a storage failure the log
    calls made are main's own, the last one holding the error New
    returned. *)
Theorem errors_carry_operation (s : Storage) (u a : string) (e : error) :
  (snd (fst (SaveURL s u a)) = Some e ->
     exists cause,
       e = fmt_Errorf "%s: %w" "storage.sqlite.SaveURL" cause
       /\ carried_op e = Some "storage.sqlite.SaveURL"
       /\ Unwrap e = Some cause
       /\ (Prepare (db s) (single INSERT_url) = Err cause
           \/ exists stmt c x,
                Prepare (db s) (single INSERT_url) = Ok stmt
                /\ fst (Stmt_Exec (db s) stmt [bind u; bind a])
                   = Err (sqlite3_Error c x)
                /\ cause = if x =? sqlite3.ErrConstraintUnique
                           then storage_error storage.ErrURLExists
                           else sqlite3_Error c x))
  /\ (forall rows, table_of s = Some rows ->
        snd (fst (SaveURL s u a)) =
          match NewRowid rows with
          | Err full =>
              Some (fmt_Errorf "%s: %w" "storage.sqlite.SaveURL" full)
          | Ok _ =>
              if existsb (alias_is a) rows
              then Some (fmt_Errorf "%s: %w" "storage.sqlite.SaveURL"
                           (storage_error storage.ErrURLExists))
              else None
          end)
  /\ (snd (fst (DeleteURL s a)) = Some e ->
        exists c x,
          e = fmt_Errorf "%s: execute statement %w"
                "storage.sqlite.DeleteURL" (sqlite3_Error c x)
          /\ carried_op e = Some "storage.sqlite.DeleteURL"
          /\ Unwrap e = Some (sqlite3_Error c x)
          /\ fst (DB_Exec (db s) (single DELETE_url) [bind a])
             = Err (sqlite3_Error c x))
  /\ (snd (fst (GetURL s a)) = Some e ->
        (e = storage_error storage.ErrURLNotFound
         /\ carried_op e = None /\ Unwrap e = None
         /\ exists stmt,
              Prepare (db s) (single SELECT_url) = Ok stmt
              /\ fst (Stmt_QueryRow_Scan (db s) stmt [bind a])
                 = Err sql_ErrNoRows)
        \/ (exists c x,
              e = fmt_Errorf "%s: prepare statement: %w"
                    "storage.sqlite.GetURL" (sqlite3_Error c x)
              /\ carried_op e = Some "storage.sqlite.GetURL"
              /\ Unwrap e = Some (sqlite3_Error c x)
              /\ Prepare (db s) (single SELECT_url)
                 = Err (sqlite3_Error c x))
        \/ (exists stmt c x,
              e = fmt_Errorf "%s: execute statement: %w"
                    "storage.sqlite.GetURL" (sqlite3_Error c x)
              /\ carried_op e = Some "storage.sqlite.GetURL"
              /\ Unwrap e = Some (sqlite3_Error c x)
              /\ Prepare (db s) (single SELECT_url) = Ok stmt
              /\ fst (Stmt_QueryRow_Scan (db s) stmt [bind a])
                 = Err (sqlite3_Error c x)))
  /\ (forall w status message logged,
        main_until_router w = Exited status message logged ->
        (exists text, message = Some text /\ logged = [])
        \/ (exists cfg err,
              fst (MustLoad w) = Return cfg
              /\ New (storage_at w (StoragePath cfg)) = (None, Some err)
              /\ carried_op err = Some "storage.sqlite.New"
              /\ logged =
                   first_log_calls cfg
                     ++ [mkLogCall LevelError "failed to init storage"
                           [sl_Err err]])).
Proof.
  split; [|split; [|split; [|split]]].
  - intro He.
    destruct s as [[|[[rows|] ix]|[[rows|] ix] c0 x0]];
      unfold SaveURL, Stmt_Exec in He; simpl in He.
    + injection He as <-. eexists. repeat split. now left.
    + destruct (NewRowid rows) as [v|err] eqn:Hid.
      * destruct (existsb (alias_is a) rows) eqn:E; simpl in He;
          [|discriminate].
        injection He as <-. eexists. repeat split. right.
        exists {| compiled := INSERT_url; tail := [] |},
          sqlite3.ErrConstraint, sqlite3.ErrConstraintUnique.
        split; [reflexivity|]. split; [|reflexivity].
        unfold Stmt_Exec; simpl. now rewrite Hid, E.
      * pose proof (NewRowid_Err rows err Hid) as ->.
        simpl in He. injection He as <-. eexists. repeat split. right.
        exists {| compiled := INSERT_url; tail := [] |},
          sqlite3.ErrFull, sqlite3.ErrFull.
        split; [reflexivity|]. split; [|reflexivity].
        unfold Stmt_Exec; simpl. now rewrite Hid.
    + injection He as <-. eexists. repeat split. now left.
    + destruct (x0 =? sqlite3.ErrConstraintUnique) eqn:E;
        injection He as <-; eexists; repeat split; right;
        exists {| compiled := INSERT_url; tail := [] |}, c0, x0;
        (split; [reflexivity|]); (split; [reflexivity|]); now rewrite E.
    + injection He as <-. eexists. repeat split. now left.
  - intros rows Ht. open_storage s. subst t.
    unfold SaveURL, Stmt_Exec; simpl.
    destruct (NewRowid rows) as [v|err] eqn:Hid.
    + now destruct (existsb (alias_is a) rows).
    + pose proof (NewRowid_Err rows err Hid) as ->. reflexivity.
  - intro He.
    destruct s as [[|[[rows|] ix]|[[rows|] ix] c0 x0]]; simpl in He;
      try discriminate; injection He as <-;
      do 2 eexists; repeat split.
  - intro He.
    destruct s as [[|[[rows|] ix]|[[rows|] ix] c0 x0]];
      unfold GetURL, Stmt_QueryRow_Scan in He; simpl in He.
    + injection He as <-. right. left. do 2 eexists. repeat split.
    + destruct (live rows a) as [|r rest] eqn:Hlive; simpl in He;
        [|discriminate].
      injection He as <-. left. repeat split.
      exists {| compiled := SELECT_url; tail := [] |}.
      split; [reflexivity|]. unfold Stmt_QueryRow_Scan; simpl.
      now rewrite Hlive.
    + injection He as <-. right. left. do 2 eexists. repeat split.
    + injection He as <-. right. right. do 3 eexists. repeat split.
    + injection He as <-. right. left. do 2 eexists. repeat split.
  - intros w status message logged H. unfold main_until_router in H.
    destruct (fst (MustLoad w)) as [cfg|text] eqn:Hcfg.
    + destruct (setupLogger (Env cfg)); [|discriminate].
      right. exists cfg.
      destruct (New (storage_at w (StoragePath cfg))) as [storage [err|]]
        eqn:Hnew; [|discriminate].
      injection H as <- <- <-.
      destruct (storage_at w (StoragePath cfg)) as [|d|d c x].
      * rewrite New_Inaccessible in Hnew. injection Hnew as <- <-.
        eexists. repeat split.
      * rewrite New_File in Hnew. discriminate.
      * unfold New, Stmt_Exec in Hnew; simpl in Hnew.
        injection Hnew as <- <-. eexists. repeat split.
    + left. injection H as <- <- <-. exists text. split; reflexivity.
Qed.

(** ** Calls for one alias, one after the other *)

(** Of the SaveURL calls for one alias run one after the other on a working
    storage where the alias has no live record, the first succeeds and
    every later one returns storage.ErrURLExists, the largest row id not
    being the largest possible one; the storage keeps the record of the
    first call. *)
Theorem SaveURL_each_first_wins (s : Storage) (rows : list row)
    (a u : string) (us : list string) :
  table_of s = Some rows ->
  live rows a = [] ->
  rowid_in_sequence s = true ->
  rowid_in_sequence (with_rows s (rows ++ [mkRow (next_rowid rows) a u]))
    = true ->
  SaveURL_each s a (u :: us) =
    ((next_rowid rows, None)
       :: map (fun _ => (0, Some (fmt_Errorf "%s: %w" "storage.sqlite.SaveURL"
                                    (storage_error storage.ErrURLExists))))
            us,
     with_rows s (rows ++ [mkRow (next_rowid rows) a u])).
Proof.
  intros Ht Hfree Hseq Hseq1. simpl.
  pose proof (NewRowid_in_sequence s rows Ht Hseq) as Hid.
  set (v := next_rowid rows) in *.
  rewrite (SaveURL_fresh s rows u a v Ht Hfree Hid).
  set (s1 := with_rows s (rows ++ [mkRow v a u])) in *.
  pose proof (NewRowid_in_sequence s1 _ (table_of_with_rows s _) Hseq1)
    as Hid1.
  assert (Hlater : forall u', SaveURL s1 u' a =
            ((0, Some (fmt_Errorf "%s: %w" "storage.sqlite.SaveURL"
                         (storage_error storage.ErrURLExists))), s1)).
  { intro u'.
    apply (SaveURL_taken s1 _ u' a (next_rowid (rows ++ [mkRow v a u]))
             (table_of_with_rows s _)); [|exact Hid1].
    rewrite live_app, Hfree. simpl. rewrite alias_is_refl. discriminate. }
  assert (Hrest : SaveURL_each s1 a us =
            (map (fun _ => (0, Some (fmt_Errorf "%s: %w"
                                       "storage.sqlite.SaveURL"
                                       (storage_error storage.ErrURLExists))))
               us, s1)).
  { induction us as [|u' us IH]; simpl.
    - reflexivity.
    - now rewrite Hlater, IH. }
  now rewrite Hrest.
Qed.

(** ** Row ids *)

Lemma fold_max_bound (l : list Z) (x : Z) :
  x <= fold_left Z.max l x
  /\ Forall (fun y => y <= fold_left Z.max l x) l.
Proof.
  revert x. induction l as [|y l IH]; simpl; intro x.
  - split; [lia | constructor].
  - destruct (IH (Z.max x y)) as [Hx Hl]. split; [lia|].
    constructor; [lia | exact Hl].
Qed.

Lemma fold_max_in (l : list Z) (x : Z) :
  fold_left Z.max l x = x \/ In (fold_left Z.max l x) l.
Proof.
  revert x. induction l as [|y l IH]; simpl; intro x.
  - now left.
  - destruct (IH (Z.max x y)) as [H|H].
    + rewrite H. destruct (Z.max_spec x y) as [[_ ->]|[_ ->]]; auto.
    + auto.
Qed.

Lemma largest_rowid_bound (rows : list row) (m : Z) :
  largest_rowid rows = Some m -> Forall (fun r => row_id r <= m) rows.
Proof.
  destruct rows as [|r rows]; simpl; intro H; [discriminate|].
  injection H as <-.
  destruct (fold_max_bound (map row_id rows) (row_id r)) as [Hr Hl].
  constructor; [exact Hr|].
  rewrite Forall_map in Hl. exact Hl.
Qed.

Lemma largest_rowid_in (rows : list row) (m : Z) :
  largest_rowid rows = Some m -> In m (map row_id rows).
Proof.
  destruct rows as [|r rows]; simpl; intro H; [discriminate|].
  injection H as <-.
  destruct (fold_max_in (map row_id rows) (row_id r)) as [->|Hin]; auto.
Qed.

Lemma rowid_used_false (rows : list row) (v : Z) :
  rowid_used rows v = false -> ~ In v (map row_id rows).
Proof.
  unfold rowid_used. induction rows as [|r rows IH]; simpl; intro H.
  - tauto.
  - apply orb_false_iff in H as [Hr Hrest]. apply Z.eqb_neq in Hr.
    intros [Heq|Hin]; [congruence | now apply IH].
Qed.

Lemma candidate_in_range (r : Z) :
  1 <= Z.land r (Z.shiftr MAX_ROWID 1) + 1 <= MAX_ROWID.
Proof.
  change (Z.shiftr MAX_ROWID 1) with (Z.ones 62).
  rewrite Z.land_ones by lia.
  pose proof (Z.mod_pos_bound r (2 ^ 62) ltac:(lia)) as H.
  change (2 ^ 62) with 4611686018427387904 in *.
  unfold MAX_ROWID. lia.
Qed.

(** The id the engine gives is in no row of the table. *)
Lemma NewRowid_unused (rows : list row) (v : Z) :
  NewRowid rows = Ok v -> ~ In v (map row_id rows).
Proof.
  unfold NewRowid. destruct (largest_rowid rows) as [m|] eqn:Hm.
  - destruct (m >=? MAX_ROWID).
    + destruct (find _ _) as [c|] eqn:Hfind; [|discriminate].
      intro H. injection H as <-.
      apply find_some in Hfind as [_ Hfree].
      apply negb_true_iff in Hfree. now apply rowid_used_false.
    + intro H. injection H as <-. intro Hin.
      apply largest_rowid_bound in Hm. rewrite Forall_forall in Hm.
      apply in_map_iff in Hin as (r & Hid & Hr). specialize (Hm r Hr). lia.
  - destruct rows; [|discriminate]. intros _ [].
Qed.

(** From ids in the range of the engine comes an id in that range. *)
Lemma NewRowid_in_range (rows : list row) (v : Z) :
  Forall (fun r => 1 <= row_id r <= MAX_ROWID) rows ->
  NewRowid rows = Ok v -> 1 <= v <= MAX_ROWID.
Proof.
  intro Hrange. unfold NewRowid.
  destruct (largest_rowid rows) as [m|] eqn:Hm.
  - destruct (m >=? MAX_ROWID) eqn:E.
    + destruct (find _ _) as [c|] eqn:Hfind; [|discriminate].
      intro H. injection H as <-.
      apply find_some in Hfind as [Hin _].
      apply in_map_iff in Hin as (r & <- & _). apply candidate_in_range.
    + intro H. injection H as <-.
      apply largest_rowid_in in Hm.
      apply in_map_iff in Hm as (r & Hid & Hr).
      rewrite Forall_forall in Hrange. specialize (Hrange r Hr).
      assert (m < MAX_ROWID).
      { destruct (Z.geb_spec m MAX_ROWID); [discriminate | lia]. }
      lia.
  - intro H. injection H as <-. unfold MAX_ROWID. lia.
Qed.

(** ** The three calls, case by case *)

(** SaveURL on a working storage: the record is appended and its id
    returned, or an error is returned with id 0 and the storage as it
    was. *)
Lemma SaveURL_cases (s : Storage) (rows : list row) (u a : string) :
  table_of s = Some rows ->
  (exists v,
     NewRowid rows = Ok v /\ live rows a = []
     /\ SaveURL s u a = ((v, None), with_rows s (rows ++ [mkRow v a u])))
  \/ (exists e, SaveURL s u a = ((0, Some e), s)).
Proof.
  intro Ht. destruct (NewRowid rows) as [v|e] eqn:Hid.
  - destruct (live rows a) as [|r rest] eqn:Hlive.
    + left. exists v. repeat split.
      exact (SaveURL_fresh s rows u a v Ht Hlive Hid).
    + right. eexists.
      apply (SaveURL_taken s rows u a v Ht); [|exact Hid].
      rewrite Hlive. discriminate.
  - right. pose proof (NewRowid_Err rows e Hid) as ->.
    open_storage s. subst t.
    unfold SaveURL, Stmt_Exec; simpl. rewrite Hid. simpl.
    eexists. reflexivity.
Qed.

(** On a storage whose file cannot be opened or has no table, SaveURL and
    DeleteURL return an error and leave the storage as it was. *)
Lemma SaveURL_broken (s : Storage) (u a : string) :
  table_of s = None -> exists e, SaveURL s u a = ((0, Some e), s).
Proof.
  intro Ht.
  destruct s as [[|[t ix]|[[rows|] ix] c0 x0]]; unfold table_of in Ht;
    simpl in Ht.
  - eexists. reflexivity.
  - subst t. eexists. reflexivity.
  - unfold SaveURL, Stmt_Exec; simpl.
    destruct (x0 =? sqlite3.ErrConstraintUnique); eexists; reflexivity.
  - eexists. reflexivity.
Qed.

Lemma DeleteURL_broken (s : Storage) (a : string) :
  table_of s = None -> exists e, DeleteURL s a = ((0, Some e), s).
Proof.
  intro Ht.
  destruct s as [[|[t ix]|[[rows|] ix] c0 x0]]; unfold table_of in Ht;
    simpl in Ht.
  - eexists. reflexivity.
  - subst t. eexists. reflexivity.
  - eexists. reflexivity.
  - eexists. reflexivity.
Qed.

(** ** The storage as a map from alias to target *)

Lemma GetURL_same_storage (s : Storage) (a : string) : snd (GetURL s a) = s.
Proof.
  destruct (table_of s) as [rows|] eqn:Ht.
  - destruct (live rows a) as [|r rest] eqn:Hlive.
    + now rewrite (GetURL_absent s rows a Ht Hlive).
    + now rewrite (GetURL_present s rows rest r a Ht Hlive).
  - destruct (GetURL_broken s a Ht) as (format & c & x & _ & ->).
    reflexivity.
Qed.

(** X3.  GetURL changes nothing: the storage after GetURL is the storage
    before it, on a working storage and on a broken one, so the storage a
    run of calls ends in is the one its SaveURL and DeleteURL calls alone
    end in. *)
Theorem GetURL_changes_nothing (s : Storage) (a : string)
    (calls : list call) :
  snd (GetURL s a) = s
  /\ run s (filter is_write calls) = run s calls.
Proof.
  split; [apply GetURL_same_storage|].
  unfold run. revert s. induction calls as [|c calls IH]; intro s; simpl.
  - reflexivity.
  - destruct c as [u b|b|b]; simpl; rewrite ?GetURL_same_storage; apply IH.
Qed.

(** X4.  GetURL reads the map: on a working storage it returns the
    target the alias resolves to and no error, or the empty string and
    storage.ErrURLNotFound when the alias resolves to nothing. *)
Theorem GetURL_resolve (s : Storage) (rows : list row) (a : string) :
  table_of s = Some rows ->
  fst (GetURL s a) =
    match resolve s a with
    | Some u => (u, None)
    | None => ("", Some (storage_error storage.ErrURLNotFound))
    end.
Proof.
  intro Ht. unfold resolve. rewrite Ht.
  destruct (live rows a) as [|r rest] eqn:Hlive.
  - now rewrite (GetURL_absent s rows a Ht Hlive).
  - now rewrite (GetURL_present s rows rest r a Ht Hlive).
Qed.

Lemma resolve_with_rows (s : Storage) (rows : list row) (a : string) :
  resolve (with_rows s rows) a =
    match live rows a with
    | r :: _ => Some (row_url r)
    | [] => None
    end.
Proof. reflexivity. Qed.

Lemma live_without_other (rows : list row) (a a' : string) :
  a <> a' -> live (without rows a) a' = live rows a'.
Proof.
  intro Hne. unfold live, without.
  induction rows as [|r rows IH]; simpl; [reflexivity|].
  destruct (alias_is a r) eqn:Ea; destruct (alias_is a' r) eqn:Ea'; simpl;
    rewrite ?Ea'; try (now rewrite IH).
  unfold alias_is in *. apply String.eqb_eq in Ea, Ea'. congruence.
Qed.

(** X5.  SaveURL writes the map only where it is empty: on a working
    storage, after SaveURL(u, a) an alias a' resolves to u when a' is a,
    a resolved to nothing and the call returned no error, and to what it
    resolved to before in every other case; in particular no call
    changes what another alias resolves to, and none replaces a target. *)
Theorem SaveURL_resolve (s : Storage) (rows : list row) (u a a' : string) :
  table_of s = Some rows ->
  resolve (snd (SaveURL s u a)) a' =
    match resolve s a, snd (fst (SaveURL s u a)) with
    | None, None => if String.eqb a' a then Some u else resolve s a'
    | _, _ => resolve s a'
    end.
Proof.
  intro Ht.
  destruct (SaveURL_cases s rows u a Ht) as [(v & Hid & Hfree & ->)|(e & ->)].
  - simpl. rewrite resolve_with_rows, live_app. unfold resolve at 1.
    rewrite Ht, Hfree. simpl.
    destruct (String.eqb_spec a' a) as [->|Hne].
    + rewrite Hfree, alias_is_refl. reflexivity.
    + rewrite (alias_is_other v a a' u) by congruence.
      rewrite app_nil_r. unfold resolve. now rewrite Ht.
  - simpl. now destruct (resolve s a).
Qed.

(** X6.  DeleteURL empties the map at one alias: on a working storage,
    after DeleteURL(a) the alias a resolves to nothing and every other
    alias resolves to what it resolved to before. *)
Theorem DeleteURL_resolve (s : Storage) (rows : list row) (a a' : string) :
  table_of s = Some rows ->
  resolve (snd (DeleteURL s a)) a' =
    if String.eqb a' a then None else resolve s a'.
Proof.
  intro Ht. rewrite (DeleteURL_ready s rows a Ht). simpl.
  rewrite resolve_with_rows.
  destruct (String.eqb_spec a' a) as [->|Hne].
  - now rewrite live_without_same.
  - rewrite live_without_other by congruence. unfold resolve. now rewrite Ht.
Qed.

(** X7.  A failed SaveURL changes nothing: whenever SaveURL returns an
    error, on a working storage or a broken one, the id it returns is 0
    and the storage is the one it was called on. *)
Theorem SaveURL_error_changes_nothing (s : Storage) (u a : string)
    (e : error) :
  snd (fst (SaveURL s u a)) = Some e ->
  fst (fst (SaveURL s u a)) = 0 /\ snd (SaveURL s u a) = s.
Proof.
  intro He. destruct (table_of s) as [rows|] eqn:Ht.
  - destruct (SaveURL_cases s rows u a Ht)
      as [(v & _ & _ & Hs)|(e' & Hs)]; rewrite Hs in *.
    + discriminate.
    + split; reflexivity.
  - destruct (SaveURL_broken s u a Ht) as (e' & ->). split; reflexivity.
Qed.

(** X8.  DeleteURL counts what it removes: on a working storage the
    count DeleteURL(a) returns is the number of records the table lost,
    the records left are the former records of the other aliases in their
    order, and a second DeleteURL(a) returns count 0 and changes
    nothing. *)
Theorem DeleteURL_removes_count (s : Storage) (rows : list row)
    (a : string) :
  table_of s = Some rows ->
  exists n s1,
    DeleteURL s a = ((Z.of_nat n, None), s1)
    /\ table_of s1 = Some (without rows a)
    /\ (List.length rows = List.length (without rows a) + n)%nat
    /\ DeleteURL s1 a = ((0, None), s1).
Proof.
  intro Ht. exists (List.length (live rows a)), (with_rows s (without rows a)).
  split; [exact (DeleteURL_ready s rows a Ht)|].
  split; [reflexivity|]. split.
  - unfold live, without. clear Ht.
    induction rows as [|r rows IH]; simpl; [reflexivity|].
    destruct (alias_is a r); simpl; lia.
  - rewrite (DeleteURL_ready _ (without rows a) a (table_of_with_rows s _)).
    rewrite live_without_same, (without_absent _ a (live_without_same rows a)).
    reflexivity.
Qed.

(** ** Ids over runs *)

Lemma without_incl (rows : list row) (a : string) (r : row) :
  In r (without rows a) -> In r rows.
Proof. unfold without. intro H. now apply filter_In in H. Qed.

Lemma NoDup_ids_without (rows : list row) (a : string) :
  NoDup (map row_id rows) -> NoDup (map row_id (without rows a)).
Proof.
  unfold without. induction rows as [|r rows IH]; simpl; intro H.
  - constructor.
  - inversion H as [|x l Hnotin Hrest]; subst.
    destruct (alias_is a r); simpl; [now apply IH|].
    constructor; [|now apply IH].
    intro Hin. apply Hnotin. apply in_map_iff in Hin as (r' & Hid & Hr').
    apply in_map_iff. exists r'. split; [exact Hid|].
    now apply filter_In in Hr'.
Qed.

Lemma NoDup_ids_insert (rows : list row) (v : Z) (a u : string) :
  NoDup (map row_id rows) -> ~ In v (map row_id rows) ->
  NoDup (map row_id (rows ++ [mkRow v a u])).
Proof.
  intros Hnd Hnew. rewrite map_app. simpl.
  apply NoDup_app; [exact Hnd | repeat constructor; tauto |].
  intros x Hx [<-|[]]. contradiction.
Qed.

(** What one call keeps: distinct ids, and ids in the engine's range. *)
Lemma after_keeps_ids (s : Storage) (c : call) :
  (distinct_ids s -> distinct_ids (after s c))
  /\ (ids_in_range s -> ids_in_range (after s c)).
Proof.
  pose proof (GetURL_same_storage s) as Hget.
  destruct (table_of s) as [rows|] eqn:Ht.
  - destruct c as [u a|a|a]; simpl.
    + destruct (SaveURL_cases s rows u a Ht)
        as [(v & Hid & _ & ->)|(e & ->)]; simpl; [|tauto].
      unfold distinct_ids, ids_in_range. rewrite Ht, table_of_with_rows.
      split; intro H.
      * apply NoDup_ids_insert; [exact H | now apply NewRowid_unused].
      * apply Forall_app. split; [exact H|]. constructor; [|constructor].
        simpl. now apply (NewRowid_in_range rows).
    + rewrite Hget. tauto.
    + rewrite (DeleteURL_ready s rows a Ht). simpl.
      unfold distinct_ids, ids_in_range. rewrite Ht, table_of_with_rows.
      split; intro H.
      * now apply NoDup_ids_without.
      * rewrite Forall_forall in *. intros r Hr. apply H.
        now apply (without_incl rows a).
  - destruct c as [u a|a|a]; simpl.
    + destruct (SaveURL_broken s u a Ht) as (e & ->). tauto.
    + rewrite Hget. tauto.
    + destruct (DeleteURL_broken s a Ht) as (e & ->). tauto.
Qed.

(** X9.  Ids identify records: if no two records of the storage share an
    id, none do after any run of SaveURL, GetURL and DeleteURL calls, and
    the id a successful SaveURL returns is the id of the record it added
    and of no record that was there before. *)
Theorem run_distinct_ids (s : Storage) (calls : list call) :
  distinct_ids s ->
  distinct_ids (run s calls)
  /\ (forall rows u a id s1,
        table_of s = Some rows ->
        SaveURL s u a = ((id, None), s1) ->
        table_of s1 = Some (rows ++ [mkRow id a u])
        /\ ~ In id (map row_id rows)).
Proof.
  intro Hinv. split.
  - unfold run. revert s Hinv.
    induction calls as [|c calls IH]; simpl; intros s Hinv; [exact Hinv|].
    apply IH. now apply after_keeps_ids.
  - intros rows u a id s1 Ht Hsave.
    apply SaveURL_ok_inv in Hsave as (rows' & Ht' & _ & Hid & ->).
    rewrite Ht in Ht'. injection Ht' as <-.
    split; [reflexivity | now apply NewRowid_unused].
Qed.

(** X10.  Ids fit the return type: if every id of the storage is between 1
    and 9223372036854775807, so is every id after any run of calls, and
    SaveURL returns an id in that range when it returns no error and 0
    when it returns one: 0 is never the id of a record. *)
Theorem SaveURL_id_in_range (s : Storage) (calls : list call)
    (u a : string) :
  ids_in_range s ->
  ids_in_range (run s calls)
  /\ match SaveURL (run s calls) u a with
     | ((id, None), _) => 1 <= id <= MAX_ROWID
     | ((id, Some _), _) => id = 0
     end.
Proof.
  intro Hinv.
  assert (Hrun : ids_in_range (run s calls)).
  { unfold run. revert s Hinv.
    induction calls as [|c calls IH]; simpl; intros s Hinv; [exact Hinv|].
    apply IH. now apply after_keeps_ids. }
  split; [exact Hrun|].
  set (t := run s calls) in *.
  destruct (table_of t) as [rows|] eqn:Ht.
  - destruct (SaveURL_cases t rows u a Ht)
      as [(v & Hid & _ & ->)|(e & ->)]; [|reflexivity].
    unfold ids_in_range in Hrun. rewrite Ht in Hrun.
    now apply (NewRowid_in_range rows).
  - destruct (SaveURL_broken t u a Ht) as (e & ->). reflexivity.
Qed.

Lemma largest_rowid_insert (rows : list row) (v : Z) (a u : string) :
  Forall (fun r => row_id r < v) rows ->
  largest_rowid (rows ++ [mkRow v a u]) = Some v.
Proof.
  destruct rows as [|r rows]; simpl; intro H; [reflexivity|].
  inversion H as [|x l Hr Hrest]; subst.
  rewrite map_app, fold_left_app. simpl.
  destruct (fold_max_in (map row_id rows) (row_id r)) as [->|Hin].
  - f_equal. lia.
  - apply in_map_iff in Hin as (r' & Hid & Hr').
    rewrite Forall_forall in Hrest. specialize (Hrest r' Hr'). f_equal. lia.
Qed.

(** X11.  Ids grow: on a working storage whose largest id is not the
    largest possible one, the id a successful SaveURL returns is larger
    than every id in the table; and two SaveURL calls in a row with the
    same target and two different aliases that have no live record both
    succeed, the second with the id after the first, and both aliases
    resolve to the target. *)
Theorem SaveURL_ids_grow (s : Storage) (rows : list row)
    (u a1 a2 : string) :
  table_of s = Some rows ->
  rowid_in_sequence s = true ->
  next_rowid rows < MAX_ROWID ->
  a1 <> a2 -> live rows a1 = [] -> live rows a2 = [] ->
  exists s1 s2,
    SaveURL s u a1 = ((next_rowid rows, None), s1)
    /\ Forall (fun r => row_id r < next_rowid rows) rows
    /\ SaveURL s1 u a2 = ((next_rowid rows + 1, None), s2)
    /\ resolve s2 a1 = Some u
    /\ resolve s2 a2 = Some u.
Proof.
  intros Ht Hseq Hroom Hne Hfree1 Hfree2.
  pose proof (NewRowid_in_sequence s rows Ht Hseq) as Hid.
  set (v := next_rowid rows) in *.
  set (rows1 := rows ++ [mkRow v a1 u]).
  assert (Hbelow : Forall (fun r => row_id r < v) rows).
  { unfold v, next_rowid. destruct (largest_rowid rows) as [m|] eqn:Hm.
    - apply largest_rowid_bound in Hm. rewrite Forall_forall in *.
      intros r Hr. specialize (Hm r Hr). simpl in Hm. lia.
    - destruct rows; [constructor | discriminate]. }
  assert (Hlargest : largest_rowid rows1 = Some v).
  { now apply largest_rowid_insert. }
  assert (Hid1 : NewRowid rows1 = Ok (v + 1)).
  { unfold NewRowid. rewrite Hlargest.
    destruct (Z.geb_spec v MAX_ROWID); [lia | reflexivity]. }
  assert (Hfree2' : live rows1 a2 = []).
  { unfold rows1. rewrite live_app, Hfree2. simpl.
    now rewrite (alias_is_other v a1 a2 u Hne). }
  exists (with_rows s rows1), (with_rows s (rows1 ++ [mkRow (v + 1) a2 u])).
  split; [exact (SaveURL_fresh s rows u a1 v Ht Hfree1 Hid)|].
  split; [exact Hbelow|].
  split.
  - exact (SaveURL_fresh (with_rows s rows1) rows1 u a2 (v + 1)
             (table_of_with_rows s rows1) Hfree2' Hid1).
  - rewrite !resolve_with_rows. unfold rows1. rewrite !live_app.
    rewrite Hfree1, Hfree2. simpl.
    rewrite !alias_is_refl, (alias_is_other v a1 a2 u Hne).
    rewrite (alias_is_other (v + 1) a2 a1 u) by congruence.
    split; reflexivity.
Qed.

(** X12.  New gives a handle or an error, never both and never neither: a
    handle, with no error, on a storage whose table url exists; or no
    handle and an error made by fmt.Errorf with the operation name
    storage.sqlite.New in front that wraps the error of the engine, for
    a path the engine cannot open and for a file it cannot run a
    statement on. *)
Theorem New_handle_or_error (storagePath : location) :
  (exists s rows, New storagePath = (Some s, None) /\ table_of s = Some rows)
  \/ (exists c x,
        New storagePath =
          (None, Some (fmt_Errorf "%s: %w" "storage.sqlite.New"
                         (sqlite3_Error c x)))
        /\ (storagePath = Inaccessible
            \/ exists d, storagePath = Failing d c x)).
Proof.
  destruct storagePath as [|d|d c x].
  - right. exists sqlite3.ErrCantOpen, sqlite3.ErrCantOpen.
    split; [reflexivity | now left].
  - left. rewrite New_File. unfold ensured.
    destruct (url_table d) as [rows|] eqn:Ht.
    + exists {| db := File d |}, rows. split; [reflexivity | exact Ht].
    + eexists. exists []. split; reflexivity.
  - right. exists c, x. split; [reflexivity|]. right. now exists d.
Qed.

(** ** The start of the command *)

(** X13.  setupLogger gives the nil logger exactly for an environment name
    other than local, dev and prod, compared as written; the logger it
    gives lets Debug records through for local and dev and records from
    Info up for prod. *)
Theorem setupLogger_nil (env : string) :
  (setupLogger env = None <->
     env <> "local" /\ env <> "dev" /\ env <> "prod")
  /\ (forall log, setupLogger env = Some log ->
        min_level log = if String.eqb env "prod" then LevelInfo
                        else LevelDebug).
Proof.
  unfold setupLogger, envLocal, envDev, envProd.
  destruct (String.eqb_spec env "local") as [->|Hl].
  - split; [split; [discriminate | intros (H & _); congruence]|].
    intros log H. injection H as <-. reflexivity.
  - destruct (String.eqb_spec env "dev") as [->|Hd].
    + split; [split; [discriminate | intros (_ & H & _); congruence]|].
      intros log H. injection H as <-. reflexivity.
    + destruct (String.eqb_spec env "prod") as [->|Hp].
      * split; [split; [discriminate | intros (_ & _ & H); congruence]|].
        intros log H. injection H as <-. reflexivity.
      * split; [split; auto | discriminate].
Qed.

Lemma godotenv_Load_merged (w : world) (vars : environment) :
  godotenv_Load (Some vars) (environ w) = Some (merged w vars).
Proof. reflexivity. Qed.

Lemma Getenv_merged (w : world) (vars : environment) :
  Getenv (merged w vars) "CONFIG_PATH" = config_path w vars.
Proof.
  unfold Getenv, merged, config_path.
  now destruct (environ w "CONFIG_PATH").
Qed.

Lemma MustLoad_loaded (w : world) (vars : environment) :
  dotenv w = Some vars ->
  MustLoad w =
    if String.eqb (config_path w vars) ""
    then (Fatal "CONFIG_PATH is not set", merged w vars)
    else
      match stat w (config_path w vars) with
      | ErrNotExist =>
          (Fatal (String.append "config file does not exist: "
                    (config_path w vars)), merged w vars)
      | _ =>
          match ReadConfig w (config_path w vars) (merged w vars) with
          | inr err =>
              (Fatal (String.append "cannot read config: " err),
               merged w vars)
          | inl cfg => (Return cfg, merged w vars)
          end
      end.
Proof.
  intro Hfile. unfold MustLoad. rewrite Hfile, godotenv_Load_merged.
  cbv zeta. rewrite Getenv_merged. reflexivity.
Qed.

(** X14.  MustLoad returns a configuration exactly when the .env file
    loads, CONFIG_PATH (of the environment when it is set there, else of
    the .env file) is not empty, os.Stat does not say that the file is
    missing, and cleanenv.ReadConfig reads the file without an error; the
    configuration is then the one ReadConfig gave.  In every other case
    the process ends in log.Fatal. *)
Theorem MustLoad_returns (w : world) (cfg : Config) :
  fst (MustLoad w) = Return cfg <->
  exists vars,
    dotenv w = Some vars
    /\ config_path w vars <> ""
    /\ stat w (config_path w vars) <> ErrNotExist
    /\ ReadConfig w (config_path w vars) (merged w vars) = inl cfg.
Proof.
  split.
  - intro H. destruct (dotenv w) as [vars|] eqn:Hfile.
    + exists vars. rewrite (MustLoad_loaded w vars Hfile) in H.
      destruct (String.eqb_spec (config_path w vars) "") as [He|Hne];
        [discriminate|].
      split; [reflexivity|]. split; [exact Hne|].
      destruct (stat w (config_path w vars)); try discriminate;
        (split; [discriminate|]);
        destruct (ReadConfig w _ _) as [c|err]; try discriminate;
        simpl in H; now injection H as <-.
    + unfold MustLoad, godotenv_Load in H. rewrite Hfile in H. discriminate.
  - intros (vars & Hfile & Hne & Hstat & Hread).
    rewrite (MustLoad_loaded w vars Hfile).
    destruct (String.eqb_spec (config_path w vars) ""); [contradiction|].
    rewrite Hread. now destruct (stat w (config_path w vars)).
Qed.

(** X15.  Without a .env file that loads MustLoad ends with Error loading
    .env file, whatever the environment has.  When the file loads, it
    never replaces a CONFIG_PATH the environment has: with CONFIG_PATH set
    to the empty string there MustLoad ends with CONFIG_PATH is not set,
    and with CONFIG_PATH set there to a path os.Stat finds missing it ends
    with config file does not exist and that path, whatever path the .env
    file gives. *)
Theorem MustLoad_environment_first (w : world) :
  (dotenv w = None -> fst (MustLoad w) = Fatal "Error loading .env file")
  /\ (forall vars path,
        dotenv w = Some vars ->
        environ w "CONFIG_PATH" = Some path ->
        (path = "" -> fst (MustLoad w) = Fatal "CONFIG_PATH is not set")
        /\ (path <> "" -> stat w path = ErrNotExist ->
            fst (MustLoad w) =
              Fatal (String.append "config file does not exist: " path))).
Proof.
  split.
  - intro Hfile. unfold MustLoad, godotenv_Load. now rewrite Hfile.
  - intros vars path Hfile Henv.
    rewrite (MustLoad_loaded w vars Hfile).
    assert (Hpath : config_path w vars = path).
    { unfold config_path. now rewrite Henv. }
    rewrite Hpath. split.
    + intros ->. reflexivity.
    + intros Hne Hstat.
      destruct (String.eqb_spec path ""); [contradiction|].
      now rewrite Hstat.
Qed.

(** X16.  main reaches the router only with all it needs: the
    configuration MustLoad returned, a logger that is not nil (the
    environment name is local, dev or prod), and a handle New returned
    with no error, on a storage whose table url exists; it has then made
    its three first log calls and no other. *)
Theorem main_routes_when_ready (w : world) (cfg : Config) (log : Logger)
    (storage : option Storage) (logged : list log_call) :
  main_until_router w = Routing cfg log storage logged ->
  fst (MustLoad w) = Return cfg
  /\ setupLogger (Env cfg) = Some log
  /\ (Env cfg = "local" \/ Env cfg = "dev" \/ Env cfg = "prod")
  /\ (exists s rows,
        storage = Some s
        /\ New (storage_at w (StoragePath cfg)) = (Some s, None)
        /\ table_of s = Some rows)
  /\ logged = first_log_calls cfg.
Proof.
  unfold main_until_router. intro H.
  destruct (fst (MustLoad w)) as [c|msg]; [|discriminate].
  destruct (setupLogger (Env c)) as [l|] eqn:Hlog; [|discriminate].
  destruct (storage_at w (StoragePath c)) as [|d|d c0 x0] eqn:Hloc;
    [discriminate | | discriminate].
  - rewrite New_File in H. injection H as <- <- <- <-.
    split; [reflexivity|]. split; [exact Hlog|]. split.
    + unfold setupLogger, envLocal, envDev, envProd in Hlog.
      destruct (String.eqb_spec (Env c) "local"); [auto|].
      destruct (String.eqb_spec (Env c) "dev"); [auto|].
      destruct (String.eqb_spec (Env c) "prod"); [auto | discriminate].
    + split; [|reflexivity].
      exists {| db := File (ensured d) |}. rewrite Hloc, New_File.
      unfold table_of, ensured; simpl.
      destruct (url_table d) as [rows|] eqn:Ht.
      * exists rows. split; [reflexivity|]. split; [reflexivity | exact Ht].
      * exists []. split; [reflexivity|]. split; reflexivity.
Qed.

(** X17.  After MustLoad returned a configuration, main does not reach the
    router with an environment name other than local, dev and prod: it
    panics at its first log call, with no log call made and the storage
    path as it was, New not having been called; and main panics in no
    other way.  Nor does it reach the router when New returns an error,
    as for a storage path that cannot be opened: it then logs failed to
    init storage with the error of New, which carries the operation name
    storage.sqlite.New, after its three first log calls, and ends with
    status 1. *)
Theorem main_stops_early (w : world) (cfg : Config) :
  fst (MustLoad w) = Return cfg ->
  (setupLogger (Env cfg) = None ->
     main_until_router w = Panicked [] (storage_at w (StoragePath cfg)))
  /\ (forall logged file,
        main_until_router w = Panicked logged file ->
        setupLogger (Env cfg) = None
        /\ logged = [] /\ file = storage_at w (StoragePath cfg))
  /\ (forall err,
        setupLogger (Env cfg) <> None ->
        New (storage_at w (StoragePath cfg)) = (None, Some err) ->
        carried_op err = Some "storage.sqlite.New"
        /\ main_until_router w =
             Exited 1 None
               (first_log_calls cfg
                  ++ [mkLogCall LevelError "failed to init storage"
                        [sl_Err err]]))
  /\ (setupLogger (Env cfg) <> None ->
      storage_at w (StoragePath cfg) = Inaccessible ->
      main_until_router w =
        Exited 1 None
          (first_log_calls cfg
             ++ [mkLogCall LevelError "failed to init storage"
                   [sl_Err (fmt_Errorf "%s: %w" "storage.sqlite.New"
                              unable_to_open)]])).
Proof.
  intro Hcfg. unfold main_until_router. rewrite Hcfg.
  split; [|split; [|split]].
  - intros ->. reflexivity.
  - intros logged file H.
    destruct (setupLogger (Env cfg)) as [l|].
    + destruct (New (storage_at w (StoragePath cfg))) as [st [e|]];
        discriminate.
    + injection H as <- <-. repeat split.
  - intros err Hlog Hnew.
    destruct (setupLogger (Env cfg)); [|contradiction].
    rewrite Hnew. split; [|reflexivity].
    destruct (storage_at w (StoragePath cfg)) as [|d|d c x].
    + rewrite New_Inaccessible in Hnew. now injection Hnew as <-.
    + rewrite New_File in Hnew. discriminate.
    + unfold New, Stmt_Exec in Hnew; simpl in Hnew. now injection Hnew as <-.
  - intros Hlog Hloc. destruct (setupLogger (Env cfg)); [|contradiction].
    rewrite Hloc. reflexivity.
Qed.

End Engine.

(** ** The operations at work

    Concrete runs, on the engine that draws no random number, from the
    handle New gives on a path with no file yet. *)

(** New on a path with no file yet returns a handle and no error; behind
    it the table url exists and is empty, and the catalog holds the index
    of the UNIQUE column only: the index named idx_alias in the text is
    not there. *)
Theorem New_on_new_file :
  New draws_nothing (File empty_database) = (Some new_storage, None)
  /\ table_of new_storage = Some []
  /\ indexes_of new_storage = [autoindex]
  /\ existsb (String.eqb "idx_alias") (indexes_of new_storage) = false.
Proof. repeat split. Qed.

(** The same text given to DB.Exec, the call DeleteURL uses, is run to its
    end: the index is created, and the closing parenthesis is a syntax
    error. *)
Example schema_text_with_DB_Exec :
  DB_Exec draws_nothing (File empty_database) schema_text []
  = (Err syntax_error,
     File {| url_table := Some []; indexes := ["idx_alias"; autoindex] |}).
Proof. reflexivity. Qed.

(** The scenario of the specification: save, get, save again, delete, get. *)
Example scenario :
  SaveURL draws_nothing new_storage "https://example.com" "ex1"
    = ((1, None), ex1_saved)
  /\ GetURL draws_nothing ex1_saved "ex1"
    = (("https://example.com", None), ex1_saved)
  /\ SaveURL draws_nothing ex1_saved "https://other.com" "ex1"
    = ((0, Some (fmt_Errorf "%s: %w" "storage.sqlite.SaveURL"
                   (storage_error storage.ErrURLExists))), ex1_saved)
  /\ DeleteURL draws_nothing ex1_saved "ex1" = ((1, None), new_storage)
  /\ GetURL draws_nothing new_storage "ex1"
    = (("", Some (storage_error storage.ErrURLNotFound)), new_storage).
Proof. repeat split. Qed.

(** C1 at the scenario: the second save of ex1. *)
Lemma SaveURL_twice_ErrURLExists_witness :
  SaveURL draws_nothing new_storage "https://example.com" "ex1"
    = ((1, None), ex1_saved)
  /\ rowid_available draws_nothing ex1_saved = true
  /\ SaveURL draws_nothing ex1_saved "https://other.com" "ex1"
     = ((0, Some (fmt_Errorf "%s: %w" "storage.sqlite.SaveURL"
                    (storage_error storage.ErrURLExists))), ex1_saved)
  /\ GetURL draws_nothing
       (snd (SaveURL draws_nothing ex1_saved "https://other.com" "ex1")) "ex1"
     = (("https://example.com", None), ex1_saved).
Proof.
  split; [reflexivity|]. split; [reflexivity|].
  destruct (SaveURL_twice_ErrURLExists draws_nothing new_storage ex1_saved
              "https://example.com" "https://other.com" "ex1" 1
              eq_refl eq_refl) as (Hsave & _ & Hget).
  split; [exact Hsave | exact Hget].
Defined.

(** C2 at the scenario: the first save of ex1, then its lookup. *)
Lemma SaveURL_then_GetURL_witness :
  exists id s1,
    SaveURL draws_nothing new_storage "https://example.com" "ex1"
      = ((id, None), s1)
    /\ GetURL draws_nothing s1 "ex1" = (("https://example.com", None), s1).
Proof.
  apply (SaveURL_then_GetURL draws_nothing new_storage []
           "https://example.com" "ex1");
    try reflexivity; discriminate.
Defined.

(** C3 at the scenario: ex1 is live in [ex1_saved], ex2 is not. *)
Lemma DeleteURL_counts_witness :
  DeleteURL draws_nothing ex1_saved "ex2" = ((0, None), ex1_saved)
  /\ exists s1,
       DeleteURL draws_nothing ex1_saved "ex1" = ((1, None), s1)
       /\ GetURL draws_nothing s1 "ex1"
          = (("", Some (storage_error storage.ErrURLNotFound)), s1).
Proof.
  assert (Hinv : unique_aliases ex1_saved).
  { apply one_per_aliasb_spec. reflexivity. }
  split.
  - apply (proj1 (DeleteURL_counts draws_nothing ex1_saved _ "ex2"
                    eq_refl Hinv)).
    reflexivity.
  - apply (proj2 (DeleteURL_counts draws_nothing ex1_saved _ "ex1"
                    eq_refl Hinv)).
    discriminate.
Defined.

(** C4 at the scenario: ex2 was never saved; and the same lookup when the
    file is locked. *)
Lemma GetURL_ErrURLNotFound_witness :
  GetURL draws_nothing ex1_saved "ex2"
    = (("", Some (storage_error storage.ErrURLNotFound)), ex1_saved)
  /\ GetURL draws_nothing ex1_locked "ex2"
     = (("", Some (fmt_Errorf "%s: execute statement: %w"
                     "storage.sqlite.GetURL"
                     (sqlite3_Error sqlite3.ErrBusy sqlite3.ErrBusy))),
        ex1_locked).
Proof.
  split.
  - apply (proj1 (GetURL_ErrURLNotFound draws_nothing ex1_saved _ "ex2"
                    eq_refl eq_refl)).
  - apply (proj1 (proj2 (proj2 (GetURL_ErrURLNotFound draws_nothing
                                  ex1_saved _ "ex2" eq_refl eq_refl))
                    sqlite3.ErrBusy sqlite3.ErrBusy "ex2")).
Defined.


(** C5 as the specification states it fails on a new storage: the save,
    the delete and the second save of ex1 all succeed, and both saves
    return id 1. *)
Lemma recreated_alias_gets_the_same_id :
  let first := SaveURL draws_nothing new_storage "https://example.com" "ex1" in
  let deleted := DeleteURL draws_nothing (snd first) "ex1" in
  let second := SaveURL draws_nothing (snd deleted) "https://other.com" "ex1" in
  fst first = (1, None)
  /\ fst deleted = (1, None)
  /\ fst second = (1, None)
  /\ ~ fst (fst first) <> fst (fst second).
Proof.
  simpl. repeat split. intro H. apply H. reflexivity.
Qed.

(** C5 as the code has it, on the new storage. *)
Lemma SaveURL_after_DeleteURL_same_id_witness :
  exists id1 s1 s2 id2 s3,
    SaveURL draws_nothing new_storage "https://example.com" "ex1"
      = ((id1, None), s1)
    /\ DeleteURL draws_nothing s1 "ex1" = ((1, None), s2)
    /\ SaveURL draws_nothing s2 "https://other.com" "ex1" = ((id2, None), s3)
    /\ GetURL draws_nothing s3 "ex1" = (("https://other.com", None), s3)
    /\ id1 = next_rowid []
    /\ id2 = id1.
Proof.
  apply (SaveURL_after_DeleteURL_same_id draws_nothing new_storage []
           "https://example.com" "https://other.com" "ex1");
    reflexivity.
Defined.

(** C7 on a run that saves ex1 twice, deletes it and saves it again. *)
Lemma run_unique_aliases_witness :
  unique_aliases
    (run draws_nothing new_storage
       [CallSaveURL "https://example.com" "ex1";
        CallSaveURL "https://other.com" "ex1";
        CallGetURL "ex1";
        CallDeleteURL "ex1";
        CallSaveURL "https://other.com" "ex1"]).
Proof.
  apply (proj1 (run_unique_aliases draws_nothing new_storage _
                  (one_per_aliasb_spec [] eq_refl))).
Defined.

(** C8 as the specification states it fails for GetURL of an alias that was
    never saved: the error is the bare storage.ErrURLNotFound, which holds
    no operation name and wraps no cause. *)
Lemma GetURL_not_found_has_no_context :
  snd (fst (GetURL draws_nothing new_storage "ex1"))
    = Some (storage_error storage.ErrURLNotFound)
  /\ carried_op (storage_error storage.ErrURLNotFound)
       <> Some "storage.sqlite.GetURL"
  /\ Unwrap (storage_error storage.ErrURLNotFound) = None.
Proof.
  repeat split. discriminate.
Qed.

(** C8 as the code has it: the error SaveURL returns for a taken alias,
    and its cause. *)
Lemma errors_carry_operation_witness :
  snd (fst (SaveURL draws_nothing ex1_saved "https://other.com" "ex1"))
    = Some (fmt_Errorf "%s: %w" "storage.sqlite.SaveURL"
              (storage_error storage.ErrURLExists))
  /\ exists cause,
       fmt_Errorf "%s: %w" "storage.sqlite.SaveURL"
         (storage_error storage.ErrURLExists)
       = fmt_Errorf "%s: %w" "storage.sqlite.SaveURL" cause
       /\ carried_op (fmt_Errorf "%s: %w" "storage.sqlite.SaveURL"
                        (storage_error storage.ErrURLExists))
          = Some "storage.sqlite.SaveURL".
Proof.
  split.
  - exact (proj1 (proj2 (errors_carry_operation draws_nothing ex1_saved
                           "https://other.com" "ex1" sql_ErrNoRows))
             _ eq_refl).
  - destruct (proj1 (errors_carry_operation draws_nothing ex1_saved
                       "https://other.com" "ex1" _) eq_refl)
      as (cause & Heq & Hop & _).
    exists cause. split; [exact Heq | exact Hop].
Defined.

(** C10 on the new storage: the empty alias is saved and found. *)
Lemma SaveURL_accepts_empty_witness :
  exists id s1,
    SaveURL draws_nothing new_storage "https://example.com" ""
      = ((id, None), s1)
    /\ table_of s1 = Some ([] ++ [mkRow id "" "https://example.com"])
    /\ GetURL draws_nothing s1 "" = (("https://example.com", None), s1).
Proof.
  apply (SaveURL_accepts_empty draws_nothing new_storage []
           "https://example.com" "");
    try reflexivity.
  right. reflexivity.
Defined.

(** Three saves of ex1 in a row on the new storage. *)
Lemma SaveURL_each_first_wins_witness :
  SaveURL_each draws_nothing new_storage "ex1"
    ["https://example.com"; "https://other.com"; "https://third.com"]
  = ([(1, None);
      (0, Some (fmt_Errorf "%s: %w" "storage.sqlite.SaveURL"
                  (storage_error storage.ErrURLExists)));
      (0, Some (fmt_Errorf "%s: %w" "storage.sqlite.SaveURL"
                  (storage_error storage.ErrURLExists)))],
     ex1_saved).
Proof.
  apply (SaveURL_each_first_wins draws_nothing new_storage []
           "ex1" "https://example.com"
           ["https://other.com"; "https://third.com"]);
    reflexivity.
Defined.

(** New on the file a first New left. *)
Lemma New_again_witness :
  New draws_nothing (db new_storage) = (Some new_storage, None).
Proof.
  apply (New_again draws_nothing empty_database new_storage). reflexivity.
Defined.

(** ** More runs *)

(** X4 on the storage with ex1 saved. *)
Lemma GetURL_resolve_witness :
  fst (GetURL draws_nothing ex1_saved "ex1") = ("https://example.com", None)
  /\ fst (GetURL draws_nothing ex1_saved "ex2")
     = ("", Some (storage_error storage.ErrURLNotFound)).
Proof.
  split.
  - exact (GetURL_resolve draws_nothing ex1_saved _ "ex1" eq_refl).
  - exact (GetURL_resolve draws_nothing ex1_saved _ "ex2" eq_refl).
Defined.

(** X5: saving ex2 gives ex2 its target and leaves ex1 as it was; saving
    ex1 again leaves ex1 as it was. *)
Lemma SaveURL_resolve_witness :
  resolve (snd (SaveURL draws_nothing ex1_saved "https://other.com" "ex2"))
    "ex2" = Some "https://other.com"
  /\ resolve (snd (SaveURL draws_nothing ex1_saved "https://other.com" "ex2"))
       "ex1" = Some "https://example.com"
  /\ resolve (snd (SaveURL draws_nothing ex1_saved "https://other.com" "ex1"))
       "ex1" = Some "https://example.com".
Proof.
  split; [|split].
  - exact (SaveURL_resolve draws_nothing ex1_saved _
             "https://other.com" "ex2" "ex2" eq_refl).
  - exact (SaveURL_resolve draws_nothing ex1_saved _
             "https://other.com" "ex2" "ex1" eq_refl).
  - exact (SaveURL_resolve draws_nothing ex1_saved _
             "https://other.com" "ex1" "ex1" eq_refl).
Defined.

(** X6: deleting ex1 from the storage with ex1 and ex2. *)
Lemma DeleteURL_resolve_witness :
  resolve (snd (DeleteURL draws_nothing ex2_saved "ex1")) "ex1" = None
  /\ resolve (snd (DeleteURL draws_nothing ex2_saved "ex1")) "ex2"
     = Some "https://example.com".
Proof.
  split.
  - exact (DeleteURL_resolve draws_nothing ex2_saved _ "ex1" "ex1" eq_refl).
  - exact (DeleteURL_resolve draws_nothing ex2_saved _ "ex1" "ex2" eq_refl).
Defined.

(** X7: saving ex1 again. *)
Lemma SaveURL_error_changes_nothing_witness :
  fst (fst (SaveURL draws_nothing ex1_saved "https://other.com" "ex1")) = 0
  /\ snd (SaveURL draws_nothing ex1_saved "https://other.com" "ex1")
     = ex1_saved.
Proof.
  exact (SaveURL_error_changes_nothing draws_nothing ex1_saved
           "https://other.com" "ex1" _ eq_refl).
Defined.

(** X8: deleting ex1 from the storage with ex1 and ex2. *)
Lemma DeleteURL_removes_count_witness :
  exists n s1,
    DeleteURL draws_nothing ex2_saved "ex1" = ((Z.of_nat n, None), s1)
    /\ table_of s1 = Some [mkRow 2 "ex2" "https://example.com"]
    /\ (2 = 1 + n)%nat
    /\ DeleteURL draws_nothing s1 "ex1" = ((0, None), s1).
Proof.
  exact (DeleteURL_removes_count draws_nothing ex2_saved _ "ex1" eq_refl).
Defined.

(** X9 on a run from the new storage. *)
Lemma run_distinct_ids_witness :
  distinct_ids
    (run draws_nothing new_storage
       [CallSaveURL "https://example.com" "ex1";
        CallSaveURL "https://example.com" "ex2";
        CallDeleteURL "ex1";
        CallSaveURL "https://other.com" "ex1"]).
Proof.
  exact (proj1 (run_distinct_ids draws_nothing new_storage _ (NoDup_nil Z))).
Defined.

(** X10: the save after one save on the new storage returns 2. *)
Lemma SaveURL_id_in_range_witness : 1 <= 2 <= MAX_ROWID.
Proof.
  exact (proj2 (SaveURL_id_in_range draws_nothing new_storage
                  [CallSaveURL "https://example.com" "ex1"]
                  "https://other.com" "ex2" (Forall_nil _))).
Defined.

(** X11: ex1 and ex2 saved with one target on the new storage. *)
Lemma SaveURL_ids_grow_witness :
  exists s1 s2,
    SaveURL draws_nothing new_storage "https://example.com" "ex1"
      = ((1, None), s1)
    /\ Forall (fun r => row_id r < 1) []
    /\ SaveURL draws_nothing s1 "https://example.com" "ex2"
       = ((1 + 1, None), s2)
    /\ resolve s2 "ex1" = Some "https://example.com"
    /\ resolve s2 "ex2" = Some "https://example.com".
Proof.
  apply (SaveURL_ids_grow draws_nothing new_storage []
           "https://example.com" "ex1" "ex2");
    try reflexivity.
  discriminate.
Defined.

(** X15: CONFIG_PATH set to the empty string in the environment. *)
Lemma MustLoad_environment_first_witness :
  fst (MustLoad exported_world) = Fatal "CONFIG_PATH is not set".
Proof.
  exact (proj1 (proj2 (MustLoad_environment_first exported_world)
                  _ "" eq_refl eq_refl) eq_refl).
Defined.

(** X16: the start in the local world. *)
Lemma main_routes_when_ready_witness :
  main_until_router draws_nothing local_world
    = Routing local_config setupPrettySlog (Some new_storage)
        (first_log_calls local_config)
  /\ setupLogger (Env local_config) = Some setupPrettySlog
  /\ exists s rows,
       Some new_storage = Some s
       /\ New draws_nothing (storage_at local_world (StoragePath local_config))
          = (Some s, None)
       /\ table_of s = Some rows.
Proof.
  split; [reflexivity|].
  destruct (main_routes_when_ready draws_nothing local_world local_config
              setupPrettySlog (Some new_storage)
              (first_log_calls local_config) eq_refl)
    as (_ & Hlog & _ & Hstorage & _).
  split; [exact Hlog | exact Hstorage].
Defined.

(** X17: the start with the environment name staging. *)
Lemma main_stops_early_witness :
  main_until_router draws_nothing staging_world
    = Panicked [] (File empty_database).
Proof.
  exact (proj1 (main_stops_early draws_nothing staging_world staging_config
                  eq_refl) eq_refl).
Defined.
